(** * kiui.cam: orbit cameras, look-at rotations and perspective matrices

    A shallow embedding of [src/kiui/cam.py] and the properties its
    specification states about it.

    Number model.  The program computes with IEEE floats ([np.float32] and
    [np.float64] arrays, Python [float] scalars).  Here every float is
    idealised as a real number of [Stdlib.Reals]: rounding, the narrowing to
    [float32] and overflow are not modelled, so "equal within floating-point
    tolerance" becomes equality of reals.  Python [int] values (the viewport
    size) are [Z].

    Control model.  An operator applied to Python scalars can raise (true
    division by zero), NumPy's element-wise operators never do (they return
    inf or nan and warn); [np.linalg.inv] raises on a singular matrix.
    Functions that contain a raising operation return a [result]. *)

From Stdlib Require Import Reals Lra Lia ZArith Psatz RNsatz.

Open Scope R_scope.

(** ** Python exceptions *)

Module Py.

Inductive exn : Type :=
| ZeroDivisionError
| LinAlgError.

Inductive result (A : Type) : Type :=
| Ok (a : A)
| Raise (e : exn).

Arguments Ok {A} a.
Arguments Raise {A} e.

Definition bind {A B : Type} (r : result A) (k : A -> result B) : result B :=
  match r with
  | Ok a => k a
  | Raise e => Raise e
  end.

(** [a / b] on Python scalars: [ZeroDivisionError] when [b] is zero. *)
Definition truediv (a b : R) : result R :=
  if Req_dec_T b 0 then Raise ZeroDivisionError else Ok (a / b).

(** [a ** b] on Python floats with a positive base. *)
Definition pow (a b : R) : R := Rpower a b.

(** [a // b] on Python ints, used with the positive literal 2 only. *)
Definition floordiv (a b : Z) : Z := Z.div a b.

End Py.

Notation "x <- e ;; k" := (Py.bind e (fun x => k))
  (at level 61, e at next level, right associativity).

(** ** NumPy arrays of the shapes the module uses *)

Module Np.

(** An array of shape [3]. *)
Record vec3 : Type := V3 { vx : R; vy : R; vz : R }.

(** An array of shape [4]. *)
Record vec4 : Type := V4 { v0 : R; v1 : R; v2 : R; v3 : R }.

(** An array of shape [3, 3], row-major. *)
Record mat3 : Type := M3 {
  a00 : R; a01 : R; a02 : R;
  a10 : R; a11 : R; a12 : R;
  a20 : R; a21 : R; a22 : R }.

(** An array of shape [4, 4], row-major. *)
Record mat4 : Type := M4 {
  m00 : R; m01 : R; m02 : R; m03 : R;
  m10 : R; m11 : R; m12 : R; m13 : R;
  m20 : R; m21 : R; m22 : R; m23 : R;
  m30 : R; m31 : R; m32 : R; m33 : R }.

Definition deg2rad (x : R) : R := x * (PI / 180).
Definition rad2deg (x : R) : R := x * (180 / PI).
(** [np.radians] is an alias of [np.deg2rad]. *)
Definition radians (x : R) : R := deg2rad x.

Definition zeros3 : vec3 := V3 0 0 0.

Definition vadd (a b : vec3) : vec3 :=
  V3 (vx a + vx b) (vy a + vy b) (vz a + vz b).
Definition vsub (a b : vec3) : vec3 :=
  V3 (vx a - vx b) (vy a - vy b) (vz a - vz b).
(** [v * k] with a scalar [k]. *)
Definition vscale (k : R) (v : vec3) : vec3 :=
  V3 (vx v * k) (vy v * k) (vz v * k).
(** [v / k] with a scalar [k]. *)
Definition vdiv (v : vec3) (k : R) : vec3 :=
  V3 (vx v / k) (vy v / k) (vz v / k).

Definition dot (a b : vec3) : R := vx a * vx b + vy a * vy b + vz a * vz b.

(** [np.cross]. *)
Definition cross (a b : vec3) : vec3 :=
  V3 (vy a * vz b - vz a * vy b)
     (vz a * vx b - vx a * vz b)
     (vx a * vy b - vy a * vx b).

(** [np.linalg.norm] of a vector. *)
Definition norm (v : vec3) : R := sqrt (dot v v).

(** [np.arctan2 y x]: the angle of the point [(x, y)], in (-pi, pi]. *)
Definition arctan2 (y x : R) : R :=
  if Rlt_dec 0 x then atan (y / x)
  else if Rlt_dec x 0 then
    (if Rle_dec 0 y then atan (y / x) + PI else atan (y / x) - PI)
  else if Rlt_dec 0 y then PI / 2
  else if Rlt_dec y 0 then - (PI / 2)
  else 0.

Definition arcsin (x : R) : R := asin x.

(** [np.eye(3)] and [np.eye(4)]. *)
Definition eye3 : mat3 := M3 1 0 0  0 1 0  0 0 1.
Definition eye4 : mat4 := M4 1 0 0 0  0 1 0 0  0 0 1 0  0 0 0 1.

(** [np.stack([a, b, c], axis=1)] of three arrays of shape [3]: the
    vectors become the columns. *)
Definition stack_axis1 (a b c : vec3) : mat3 :=
  M3 (vx a) (vx b) (vx c)
     (vy a) (vy b) (vy c)
     (vz a) (vz b) (vz c).

(** [M[:3, j]]: the columns of a 3x3 array. *)
Definition col0 (M : mat3) : vec3 := V3 (a00 M) (a10 M) (a20 M).
Definition col1 (M : mat3) : vec3 := V3 (a01 M) (a11 M) (a21 M).
Definition col2 (M : mat3) : vec3 := V3 (a02 M) (a12 M) (a22 M).

Definition transpose3 (M : mat3) : mat3 :=
  M3 (a00 M) (a10 M) (a20 M)
     (a01 M) (a11 M) (a21 M)
     (a02 M) (a12 M) (a22 M).

(** [A @ B] on 3x3 arrays. *)
Definition matmul3 (A B : mat3) : mat3 :=
  M3 (a00 A * a00 B + a01 A * a10 B + a02 A * a20 B)
     (a00 A * a01 B + a01 A * a11 B + a02 A * a21 B)
     (a00 A * a02 B + a01 A * a12 B + a02 A * a22 B)
     (a10 A * a00 B + a11 A * a10 B + a12 A * a20 B)
     (a10 A * a01 B + a11 A * a11 B + a12 A * a21 B)
     (a10 A * a02 B + a11 A * a12 B + a12 A * a22 B)
     (a20 A * a00 B + a21 A * a10 B + a22 A * a20 B)
     (a20 A * a01 B + a21 A * a11 B + a22 A * a21 B)
     (a20 A * a02 B + a21 A * a12 B + a22 A * a22 B).

(** [M @ v] with [v] of shape [3]. *)
Definition matvec3 (M : mat3) (v : vec3) : vec3 :=
  V3 (a00 M * vx v + a01 M * vy v + a02 M * vz v)
     (a10 M * vx v + a11 M * vy v + a12 M * vz v)
     (a20 M * vx v + a21 M * vy v + a22 M * vz v).

(** [k * M] with a scalar [k]. *)
Definition mscale3 (k : R) (M : mat3) : mat3 :=
  M3 (k * a00 M) (k * a01 M) (k * a02 M)
     (k * a10 M) (k * a11 M) (k * a12 M)
     (k * a20 M) (k * a21 M) (k * a22 M).

Definition madd3 (A B : mat3) : mat3 :=
  M3 (a00 A + a00 B) (a01 A + a01 B) (a02 A + a02 B)
     (a10 A + a10 B) (a11 A + a11 B) (a12 A + a12 B)
     (a20 A + a20 B) (a21 A + a21 B) (a22 A + a22 B).

(** [np.linalg.det] of a 3x3 array. *)
Definition det3 (M : mat3) : R :=
  a00 M * (a11 M * a22 M - a12 M * a21 M)
  - a01 M * (a10 M * a22 M - a12 M * a20 M)
  + a02 M * (a10 M * a21 M - a11 M * a20 M).

(** [T[:3, :3]] read and written. *)
Definition get_block (T : mat4) : mat3 :=
  M3 (m00 T) (m01 T) (m02 T)
     (m10 T) (m11 T) (m12 T)
     (m20 T) (m21 T) (m22 T).
Definition set_block (T : mat4) (M : mat3) : mat4 :=
  M4 (a00 M) (a01 M) (a02 M) (m03 T)
     (a10 M) (a11 M) (a12 M) (m13 T)
     (a20 M) (a21 M) (a22 M) (m23 T)
     (m30 T) (m31 T) (m32 T) (m33 T).

(** [T[:3, 3]] read and written. *)
Definition get_col3 (T : mat4) : vec3 := V3 (m03 T) (m13 T) (m23 T).
Definition set_col3 (T : mat4) (v : vec3) : mat4 :=
  M4 (m00 T) (m01 T) (m02 T) (vx v)
     (m10 T) (m11 T) (m12 T) (vy v)
     (m20 T) (m21 T) (m22 T) (vz v)
     (m30 T) (m31 T) (m32 T) (m33 T).

(** [T[2, 3] = x]. *)
Definition set_23 (T : mat4) (x : R) : mat4 :=
  M4 (m00 T) (m01 T) (m02 T) (m03 T)
     (m10 T) (m11 T) (m12 T) (m13 T)
     (m20 T) (m21 T) (m22 T) x
     (m30 T) (m31 T) (m32 T) (m33 T).

(** [A @ B] on 4x4 arrays. *)
Definition matmul4 (A B : mat4) : mat4 :=
  M4 (m00 A * m00 B + m01 A * m10 B + m02 A * m20 B + m03 A * m30 B)
     (m00 A * m01 B + m01 A * m11 B + m02 A * m21 B + m03 A * m31 B)
     (m00 A * m02 B + m01 A * m12 B + m02 A * m22 B + m03 A * m32 B)
     (m00 A * m03 B + m01 A * m13 B + m02 A * m23 B + m03 A * m33 B)
     (m10 A * m00 B + m11 A * m10 B + m12 A * m20 B + m13 A * m30 B)
     (m10 A * m01 B + m11 A * m11 B + m12 A * m21 B + m13 A * m31 B)
     (m10 A * m02 B + m11 A * m12 B + m12 A * m22 B + m13 A * m32 B)
     (m10 A * m03 B + m11 A * m13 B + m12 A * m23 B + m13 A * m33 B)
     (m20 A * m00 B + m21 A * m10 B + m22 A * m20 B + m23 A * m30 B)
     (m20 A * m01 B + m21 A * m11 B + m22 A * m21 B + m23 A * m31 B)
     (m20 A * m02 B + m21 A * m12 B + m22 A * m22 B + m23 A * m32 B)
     (m20 A * m03 B + m21 A * m13 B + m22 A * m23 B + m23 A * m33 B)
     (m30 A * m00 B + m31 A * m10 B + m32 A * m20 B + m33 A * m30 B)
     (m30 A * m01 B + m31 A * m11 B + m32 A * m21 B + m33 A * m31 B)
     (m30 A * m02 B + m31 A * m12 B + m32 A * m22 B + m33 A * m32 B)
     (m30 A * m03 B + m31 A * m13 B + m32 A * m23 B + m33 A * m33 B).

(** The determinant of a 4x4 array, expanded along its last row. *)
Definition det4 (A : mat4) : R :=
  - m30 A * det3 (M3 (m01 A) (m02 A) (m03 A)
                     (m11 A) (m12 A) (m13 A)
                     (m21 A) (m22 A) (m23 A))
  + m31 A * det3 (M3 (m00 A) (m02 A) (m03 A)
                     (m10 A) (m12 A) (m13 A)
                     (m20 A) (m22 A) (m23 A))
  - m32 A * det3 (M3 (m00 A) (m01 A) (m03 A)
                     (m10 A) (m11 A) (m13 A)
                     (m20 A) (m21 A) (m23 A))
  + m33 A * det3 (M3 (m00 A) (m01 A) (m02 A)
                     (m10 A) (m11 A) (m12 A)
                     (m20 A) (m21 A) (m22 A)).

(** [A[i, j]]. *)
Definition entry (A : mat4) (i j : nat) : R :=
  match i, j with
  | 0%nat, 0%nat => m00 A | 0%nat, 1%nat => m01 A
  | 0%nat, 2%nat => m02 A | 0%nat, _ => m03 A
  | 1%nat, 0%nat => m10 A | 1%nat, 1%nat => m11 A
  | 1%nat, 2%nat => m12 A | 1%nat, _ => m13 A
  | 2%nat, 0%nat => m20 A | 2%nat, 1%nat => m21 A
  | 2%nat, 2%nat => m22 A | 2%nat, _ => m23 A
  | _, 0%nat => m30 A | _, 1%nat => m31 A
  | _, 2%nat => m32 A | _, _ => m33 A
  end.

(** The three indices of 0..3 other than [i], in increasing order. *)
Definition others (i : nat) : nat * nat * nat :=
  match i with
  | 0%nat => (1, 2, 3)
  | 1%nat => (0, 2, 3)
  | 2%nat => (0, 1, 3)
  | _ => (0, 1, 2)
  end%nat.

(** The minor of [A] that drops row [i] and column [j]. *)
Definition minor (A : mat4) (i j : nat) : R :=
  let '(r0, r1, r2) := others i in
  let '(c0, c1, c2) := others j in
  det3 (M3 (entry A r0 c0) (entry A r0 c1) (entry A r0 c2)
           (entry A r1 c0) (entry A r1 c1) (entry A r1 c2)
           (entry A r2 c0) (entry A r2 c1) (entry A r2 c2)).

(** The cofactor [(-1)^(i+j) * minor i j]. *)
Definition cofactor (A : mat4) (i j : nat) : R :=
  if Nat.even (i + j) then minor A i j else - minor A i j.

(** The adjugate: the transposed matrix of cofactors. *)
Definition adjugate (A : mat4) : mat4 :=
  M4 (cofactor A 0 0) (cofactor A 1 0) (cofactor A 2 0) (cofactor A 3 0)
     (cofactor A 0 1) (cofactor A 1 1) (cofactor A 2 1) (cofactor A 3 1)
     (cofactor A 0 2) (cofactor A 1 2) (cofactor A 2 2) (cofactor A 3 2)
     (cofactor A 0 3) (cofactor A 1 3) (cofactor A 2 3) (cofactor A 3 3).

Definition mscale4 (k : R) (A : mat4) : mat4 :=
  M4 (k * m00 A) (k * m01 A) (k * m02 A) (k * m03 A)
     (k * m10 A) (k * m11 A) (k * m12 A) (k * m13 A)
     (k * m20 A) (k * m21 A) (k * m22 A) (k * m23 A)
     (k * m30 A) (k * m31 A) (k * m32 A) (k * m33 A).

(** [np.linalg.inv]: the inverse matrix; [LinAlgError] on a singular
    array. *)
Definition inv (A : mat4) : Py.result mat4 :=
  if Req_dec_T (det4 A) 0 then Py.Raise Py.LinAlgError
  else Py.Ok (mscale4 (/ det4 A) (adjugate A)).

End Np.

Import Np.

(** ** scipy.spatial.transform.Rotation

    SciPy is an external library.  A [Rotation] is modelled by the rotation
    matrix it denotes, and each operation by its documented meaning:
    [from_matrix] and [as_matrix] convert, [p * q] composes ([q] is applied
    first, so the matrices multiply in the same order), and [from_rotvec v]
    is the rotation about the direction of [v] by the angle [|v|]
    (Rodrigues' formula).  SciPy keeps every [Rotation] a proper rotation;
    here that is the invariant [proper_rotation] of the matrix, which the
    lemmas below show the constructor and the mutators maintain. *)

Module Rotation.

Record t : Type := of_matrix { as_matrix : mat3 }.

(** Exact on proper rotations.  On any other matrix SciPy orthogonalises or
    raises; the theorems about the rotation [from_angle] stores take a
    non-zero radius and an elevation off the poles, where [look_at] is a
    proper rotation. *)
Definition from_matrix (M : mat3) : t := of_matrix M.

(** [p * q]. *)
Definition mul (p q : t) : t :=
  of_matrix (matmul3 (as_matrix p) (as_matrix q)).

(** The cross-product matrix of [k]: [skew k @ v = cross k v]. *)
Definition skew (k : vec3) : mat3 :=
  M3 0 (- vz k) (vy k)
     (vz k) 0 (- vx k)
     (- vy k) (vx k) 0.

(** The rotation about the unit axis [k] by the signed angle [theta]:
    [I + sin theta K + (1 - cos theta) K @ K] with [K = skew k]. *)
Definition axis_angle (k : vec3) (theta : R) : mat3 :=
  madd3 (madd3 eye3 (mscale3 (sin theta) (skew k)))
        (mscale3 (1 - cos theta) (matmul3 (skew k) (skew k))).

Definition from_rotvec (v : vec3) : t :=
  let angle := norm v in
  if Req_dec_T angle 0 then of_matrix eye3
  else of_matrix (axis_angle (vdiv v angle) angle).

End Rotation.

(** ** kiui.op

    Modelled from the spec: [safe_normalize] lives in [kiui/op.py], which is
    not part of the sources at hand.  The specification calls it
    "normalize": the vector divided by its length. *)

Definition safe_normalize (x : vec3) : vec3 := vdiv x (norm x).

(** ** kiui.cam: the free functions *)

(** [look_at(campos, target, opengl=True)] on arrays of shape [3]. *)
Definition look_at (campos target : vec3) (opengl : bool) : mat3 :=
  if negb opengl then
    let forward_vector := safe_normalize (vsub target campos) in
    let up_vector := V3 0 1 0 in
    let right_vector := safe_normalize (cross forward_vector up_vector) in
    let up_vector := safe_normalize (cross right_vector forward_vector) in
    stack_axis1 right_vector up_vector forward_vector
  else
    let forward_vector := safe_normalize (vsub campos target) in
    let up_vector := V3 0 1 0 in
    let right_vector := safe_normalize (cross up_vector forward_vector) in
    let up_vector := safe_normalize (cross forward_vector right_vector) in
    stack_axis1 right_vector up_vector forward_vector.

(** [orbit_camera(elevation, azimuth, radius=1, is_degree=True, target=None,
    opengl=True)]. *)
Definition orbit_camera (elevation azimuth radius : R) (is_degree : bool)
    (target : option vec3) (opengl : bool) : mat4 :=
  let elevation := if is_degree then deg2rad elevation else elevation in
  let azimuth := if is_degree then deg2rad azimuth else azimuth in
  let x := radius * cos elevation * sin azimuth in
  let y := - radius * sin elevation in
  let z := radius * cos elevation * cos azimuth in
  let target := match target with None => zeros3 | Some t => t end in
  let campos := vadd (V3 x y z) target in
  let T := eye4 in
  let T := set_block T (look_at campos target opengl) in
  let T := set_col3 T campos in
  T.

(** [undo_orbit_camera(T, is_degree=True)]. *)
Definition undo_orbit_camera (T : mat4) (is_degree : bool) : R * R * R :=
  let campos := get_col3 T in
  let radius := norm campos in
  let elevation := arcsin (- vy campos / radius) in
  let azimuth := arctan2 (vx campos) (vz campos) in
  let elevation := if is_degree then rad2deg elevation else elevation in
  let azimuth := if is_degree then rad2deg azimuth else azimuth in
  (elevation, azimuth, radius).

(** The 4x4 array both [get_perspective] and [OrbitCamera.perspective]
    build from [y], [aspect], [near] and [far].  The first two rows divide
    by a NumPy scalar; the third divides Python scalars.  Where [y] or
    [aspect] is zero NumPy gives inf there, which the reals do not have:
    the entries of the first two rows are meaningful for [y] and [aspect]
    other than zero only. *)
Definition perspective_array (y aspect near far : R) : Py.result mat4 :=
  e22 <- Py.truediv (- (far + near)) (far - near) ;;
  e23 <- Py.truediv (- (2 * far * near)) (far - near) ;;
  Py.Ok (M4 (1 / (y * aspect)) 0 0 0
            0 (-1 / y) 0 0
            0 0 e22 e23
            0 0 (-1) 0).

(** [get_perspective(fovy, aspect=1, near=0.01, far=1000)]. *)
Definition get_perspective (fovy aspect near far : R) : Py.result mat4 :=
  let y := tan (deg2rad fovy / 2) in
  perspective_array y aspect near far.

(** ** kiui.cam: class OrbitCamera *)

Module OrbitCamera.

Record t : Type := Build {
  W : Z;
  H : Z;
  radius : R;
  fovy : R;
  near : R;
  far : R;
  center : vec3;
  rot : Rotation.t;
  up : vec3 }.

(** [OrbitCamera(W, H, r=2, fovy=60, near=0.01, far=100)]. *)
Definition init (W H : Z) (r fovy near far : R) : t :=
  {| W := W;
     H := H;
     radius := r;
     fovy := deg2rad fovy;
     near := near;
     far := far;
     center := V3 0 0 0;
     rot := Rotation.from_matrix eye3;
     up := V3 0 1 0 |}.

Definition fovx (self : t) : R :=
  2 * atan (tan (fovy self / 2) * IZR (W self) / IZR (H self)).

(** The local array the source calls [rot] is [rot4] here, the field being
    [rot]. *)
Definition pose (self : t) : mat4 :=
  let res := eye4 in
  let res := set_23 res (radius self) in
  let rot4 := eye4 in
  let rot4 := set_block rot4 (Rotation.as_matrix (rot self)) in
  let res := matmul4 rot4 res in
  let res := set_col3 res (vsub (get_col3 res) (center self)) in
  res.

Definition campos (self : t) : vec3 := get_col3 (pose self).

Definition view (self : t) : Py.result mat4 := inv (pose self).

Definition perspective (self : t) : Py.result mat4 :=
  let y := tan (fovy self / 2) in
  aspect <- Py.truediv (IZR (W self)) (IZR (H self)) ;;
  perspective_array y aspect (near self) (far self).

Definition intrinsics (self : t) : vec4 :=
  let focal := IZR (H self) / (2 * tan (fovy self / 2)) in
  V4 focal focal (IZR (Py.floordiv (W self) 2)) (IZR (Py.floordiv (H self) 2)).

Definition mvp (self : t) : Py.result mat4 :=
  p <- perspective self ;;
  v <- inv (pose self) ;;
  Py.Ok (matmul4 p v).

Definition with_rot (self : t) (r : Rotation.t) : t :=
  {| W := W self; H := H self; radius := radius self; fovy := fovy self;
     near := near self; far := far self; center := center self;
     rot := r; up := up self |}.

Definition with_radius (self : t) (r : R) : t :=
  {| W := W self; H := H self; radius := r; fovy := fovy self;
     near := near self; far := far self; center := center self;
     rot := rot self; up := up self |}.

Definition with_center (self : t) (c : vec3) : t :=
  {| W := W self; H := H self; radius := radius self; fovy := fovy self;
     near := near self; far := far self; center := c;
     rot := rot self; up := up self |}.

Definition orbit (self : t) (dx dy : R) : t :=
  let side := col0 (Rotation.as_matrix (rot self)) in
  let rotvec_x := vscale (radians (-0.05 * dx)) (up self) in
  let rotvec_y := vscale (radians (-0.05 * dy)) side in
  with_rot self
    (Rotation.mul
       (Rotation.mul (Rotation.from_rotvec rotvec_x)
                     (Rotation.from_rotvec rotvec_y))
       (rot self)).

Definition scale (self : t) (delta : R) : t :=
  with_radius self (radius self * Py.pow 1.1 (- delta)).

(** [pan(dx, dy, dz=0)]. *)
Definition pan (self : t) (dx dy dz : R) : t :=
  with_center self
    (vadd (center self)
          (matvec3 (mscale3 0.0005 (Rotation.as_matrix (rot self)))
                   (V3 dx (- dy) dz))).

(** [from_angle(elevation, azimuth, is_degree=True)]. *)
Definition from_angle (self : t) (elevation azimuth : R)
    (is_degree : bool) : t :=
  let elevation := if is_degree then deg2rad elevation else elevation in
  let azimuth := if is_degree then deg2rad azimuth else azimuth in
  let x := radius self * cos elevation * sin azimuth in
  let y := - radius self * sin elevation in
  let z := radius self * cos elevation * cos azimuth in
  let campos := V3 x y z in
  let rot_mat := look_at campos zeros3 true in
  with_rot self (Rotation.from_matrix rot_mat).

End OrbitCamera.

Import OrbitCamera.

(** ** Vocabulary of the specification *)

(** Columns of unit length that are mutually orthogonal. *)
Definition orthonormal (M : mat3) : Prop :=
  norm (col0 M) = 1 /\ norm (col1 M) = 1 /\ norm (col2 M) = 1 /\
  dot (col0 M) (col1 M) = 0 /\
  dot (col0 M) (col2 M) = 0 /\
  dot (col1 M) (col2 M) = 0.

(** A proper rotation: orthonormal with determinant +1. *)
Definition proper_rotation (M : mat3) : Prop :=
  orthonormal M /\ det3 M = 1.

(** The Euclidean distance of two points. *)
Definition dist (p q : vec3) : R := norm (vsub p q).

(** The point at elevation and azimuth (in radians) on the sphere of the
    given radius about the origin, as [orbit_camera] computes it for the
    default target (the zero vector is added to it). *)
Definition orbit_position (elevation azimuth radius : R) : vec3 :=
  V3 (radius * cos elevation * sin azimuth + 0)
     (- radius * sin elevation + 0)
     (radius * cos elevation * cos azimuth + 0).

(** States built by the constructor and the four mutators.  The constructor
    takes a non-zero radius and [from_angle] an elevation off the poles:
    elsewhere [look_at] has no direction to normalise. *)
Inductive reachable : OrbitCamera.t -> Prop :=
| reach_init (W H : Z) (r fovy near far : R) :
    r <> 0 -> reachable (init W H r fovy near far)
| reach_orbit (s : OrbitCamera.t) (dx dy : R) :
    reachable s -> reachable (orbit s dx dy)
| reach_scale (s : OrbitCamera.t) (delta : R) :
    reachable s -> reachable (scale s delta)
| reach_pan (s : OrbitCamera.t) (dx dy dz : R) :
    reachable s -> reachable (pan s dx dy dz)
| reach_from_angle (s : OrbitCamera.t) (elevation azimuth : R) :
    reachable s -> -90 < elevation < 90 ->
    reachable (from_angle s elevation azimuth true).

(** The camera after [OrbitCamera(640, 480).pan(2000, 0)]. *)
Definition panned_camera : OrbitCamera.t :=
  pan (init 640 480 2 60 0.01 100) 2000 0 0.

(** [A @ v] with [v] of shape [4]. *)
Definition matvec4 (A : mat4) (v : vec4) : vec4 :=
  V4 (m00 A * v0 v + m01 A * v1 v + m02 A * v2 v + m03 A * v3 v)
     (m10 A * v0 v + m11 A * v1 v + m12 A * v2 v + m13 A * v3 v)
     (m20 A * v0 v + m21 A * v1 v + m22 A * v2 v + m23 A * v3 v)
     (m30 A * v0 v + m31 A * v1 v + m32 A * v2 v + m33 A * v3 v).

(** [T[3, :]]: the bottom row of a 4x4 array. *)
Definition get_row3 (T : mat4) : vec4 := V4 (m30 T) (m31 T) (m32 T) (m33 T).

(** Unfolds the array operations down to arithmetic on the entries. *)
Ltac mat_unfold :=
  cbv [matmul4 matmul3 adjugate mscale4 mscale3 eye4 eye3 det4 cofactor minor
       det3 others entry Nat.even Nat.add transpose3 madd3 matvec3
       get_block set_block get_col3 set_col3 set_23 stack_axis1
       col0 col1 col2 dot cross vadd vsub vscale vdiv zeros3
       Rotation.axis_angle Rotation.skew
       m00 m01 m02 m03 m10 m11 m12 m13 m20 m21 m22 m23 m30 m31 m32 m33
       a00 a01 a02 a10 a11 a12 a20 a21 a22 vx vy vz].

(** * Properties *)

(** ** Vectors *)

Section VectorFacts.

Implicit Types u v w : vec3.

Lemma dot_self_nonneg v : 0 <= dot v v.
Proof. unfold dot. nra. Qed.

Lemma norm_nonneg v : 0 <= norm v.
Proof. apply sqrt_pos. Qed.

Lemma norm_mul_norm v : norm v * norm v = dot v v.
Proof. apply sqrt_sqrt, dot_self_nonneg. Qed.

Lemma norm_of_sq v (r : R) : 0 <= r -> dot v v = r * r -> norm v = r.
Proof.
  intros Hr Hv. unfold norm. rewrite Hv. now apply sqrt_square.
Qed.

Lemma norm_unit v : dot v v = 1 -> norm v = 1.
Proof. intros Hv. apply norm_of_sq; lra. Qed.

Lemma unit_dot v : norm v = 1 -> dot v v = 1.
Proof. intros Hv. rewrite <- norm_mul_norm, Hv. ring. Qed.

Lemma norm_pos v : 0 < dot v v -> 0 < norm v.
Proof. intros Hv. now apply sqrt_lt_R0. Qed.

Lemma dot_vdiv u v (k : R) :
  k <> 0 -> dot (vdiv u k) (vdiv v k) = dot u v / (k * k).
Proof. intros Hk. unfold dot, vdiv; simpl. now field. Qed.

Lemma dot_vdiv_l u v (k : R) : k <> 0 -> dot (vdiv u k) v = dot u v / k.
Proof. intros Hk. unfold dot, vdiv; simpl. now field. Qed.

Lemma dot_comm u v : dot u v = dot v u.
Proof. unfold dot. ring. Qed.

Lemma vdiv_1 v : vdiv v 1 = v.
Proof. destruct v; unfold vdiv; simpl. f_equal; field. Qed.

Lemma safe_normalize_unit v :
  0 < dot v v -> dot (safe_normalize v) (safe_normalize v) = 1.
Proof.
  intros Hv. unfold safe_normalize.
  pose proof (norm_pos v Hv) as Hn.
  rewrite dot_vdiv by lra.
  rewrite norm_mul_norm. field. lra.
Qed.

Lemma safe_normalize_of_unit v : dot v v = 1 -> safe_normalize v = v.
Proof.
  intros Hv. unfold safe_normalize. rewrite (norm_unit v Hv). apply vdiv_1.
Qed.

(** Lagrange's identity. *)
Lemma dot_cross_cross u v :
  dot (cross u v) (cross u v) = dot u u * dot v v - dot u v * dot u v.
Proof. unfold dot, cross; simpl. ring. Qed.

Lemma dot_cross_l u v : dot (cross u v) u = 0.
Proof. unfold dot, cross; simpl. ring. Qed.

Lemma dot_cross_r u v : dot (cross u v) v = 0.
Proof. unfold dot, cross; simpl. ring. Qed.

(** The determinant of three columns as a triple product. *)
Lemma det3_stack u v w : det3 (stack_axis1 u v w) = dot u (cross v w).
Proof. unfold det3, stack_axis1, dot, cross; simpl. ring. Qed.

Lemma triple_cross u v :
  dot u (cross (cross v u) v) = dot u u * dot v v - dot u v * dot u v.
Proof. unfold dot, cross; simpl. ring. Qed.

End VectorFacts.

(** ** look_at builds proper rotations *)

Section LookAt.

(** A right-handed frame from two orthogonal unit vectors [r] and [f]. *)
Lemma frame_proper (r f : vec3) :
  dot r r = 1 -> dot f f = 1 -> dot r f = 0 ->
  proper_rotation (stack_axis1 r (cross f r) f).
Proof.
  intros Hr Hf Hrf.
  assert (Hu : dot (cross f r) (cross f r) = 1).
  { rewrite dot_cross_cross, Hr, Hf, (dot_comm f r), Hrf. ring. }
  split; [unfold orthonormal|]; repeat split;
    change (col0 (stack_axis1 r (cross f r) f)) with
      (V3 (vx r) (vy r) (vz r));
    change (col1 (stack_axis1 r (cross f r) f)) with
      (V3 (vx (cross f r)) (vy (cross f r)) (vz (cross f r)));
    change (col2 (stack_axis1 r (cross f r) f)) with
      (V3 (vx f) (vy f) (vz f)).
  - apply norm_unit. destruct r; exact Hr.
  - apply norm_unit. exact Hu.
  - apply norm_unit. destruct f; exact Hf.
  - destruct r, f; unfold dot, cross; simpl; ring.
  - destruct r, f; exact Hrf.
  - destruct r, f; unfold dot, cross; simpl; ring.
  - rewrite det3_stack, triple_cross, Hr, Hf, Hrf. ring.
Qed.

(** In the OpenGL convention [look_at] returns a proper rotation whenever
    the viewing direction is not parallel to the world up axis. *)
Lemma look_at_opengl_proper (campos target : vec3) :
  let d := vsub campos target in
  0 < vx d * vx d + vz d * vz d ->
  proper_rotation (look_at campos target true).
Proof.
  intros d Hd. unfold look_at; simpl negb; cbv iota.
  fold d. clearbody d.
  assert (Hdd : 0 < dot d d) by (unfold dot; nra).
  set (f := safe_normalize d).
  assert (Hf : dot f f = 1) by now apply safe_normalize_unit.
  set (r0 := cross (V3 0 1 0) f).
  assert (Hr0 : 0 < dot r0 r0).
  { pose proof (norm_pos d Hdd) as Hn.
    replace (dot r0 r0)
      with ((vx d * vx d + vz d * vz d) / (norm d * norm d)).
    - apply Rdiv_lt_0_compat; [exact Hd | nra].
    - unfold r0, f, safe_normalize, dot, cross, vdiv; simpl.
      field. lra. }
  set (r := safe_normalize r0).
  assert (Hr : dot r r = 1) by now apply safe_normalize_unit.
  assert (Hrf : dot r f = 0).
  { unfold r, safe_normalize.
    pose proof (norm_pos r0 Hr0) as Hn.
    rewrite dot_vdiv_l by lra.
    unfold r0. rewrite dot_cross_r. field. fold r0. lra. }
  assert (Hu : dot (cross f r) (cross f r) = 1).
  { rewrite dot_cross_cross, Hr, Hf, (dot_comm f r), Hrf. ring. }
  rewrite (safe_normalize_of_unit _ Hu).
  now apply frame_proper.
Qed.

End LookAt.

(** ** Angles *)

Section Angles.

Lemma deg2rad_bounds (d b : R) :
  - b < d < b -> - (b * (PI / 180)) < deg2rad d < b * (PI / 180).
Proof.
  intros [Hl Hu]. unfold deg2rad. pose proof PI_RGT_0. split; nra.
Qed.

Lemma deg2rad_90 (d : R) :
  -90 < d < 90 -> - (PI / 2) < deg2rad d < PI / 2.
Proof.
  intros Hd. destruct (deg2rad_bounds d 90) as [Hl Hu]; [lra|].
  split; lra.
Qed.

Lemma deg2rad_180 (d : R) :
  -180 < d < 180 -> - PI < deg2rad d < PI.
Proof.
  intros Hd. destruct (deg2rad_bounds d 180) as [Hl Hu]; [lra|].
  split; lra.
Qed.

Lemma rad2deg_deg2rad (d : R) : rad2deg (deg2rad d) = d.
Proof.
  unfold rad2deg, deg2rad. pose proof PI_RGT_0. field. lra.
Qed.

Lemma sin_cos_sq (a : R) : sin a * sin a + cos a * cos a = 1.
Proof. pose proof (sin2_cos2 a) as Hs. unfold Rsqr in Hs. exact Hs. Qed.

Lemma tan_scaled (k a : R) :
  k <> 0 -> cos a <> 0 -> k * sin a / (k * cos a) = tan a.
Proof. intros Hk Hc. unfold tan. now field. Qed.

Lemma tan_shift_plus (a : R) : cos a <> 0 -> tan (a + PI) = tan a.
Proof.
  intros Hc. unfold tan. rewrite neg_sin, neg_cos. now field.
Qed.

(** [arctan2] recovers the angle of a point given in polar form. *)
Lemma arctan2_polar (k a : R) :
  0 < k -> - PI < a < PI -> arctan2 (k * sin a) (k * cos a) = a.
Proof.
  intros Hk [Hl Hu]. pose proof PI_RGT_0 as Hpi. unfold arctan2.
  destruct (Rlt_dec a (- (PI / 2))) as [Ha1 | Ha1].
  - (* third quadrant *)
    assert (Hc : cos a < 0).
    { rewrite <- (cos_neg a). apply cos_lt_0; lra. }
    assert (Hs : sin a < 0).
    { apply sin_lt_0_var; lra. }
    destruct (Rlt_dec 0 (k * cos a)) as [H0 | _]; [nra|].
    destruct (Rlt_dec (k * cos a) 0) as [_ | H0]; [|nra].
    destruct (Rle_dec 0 (k * sin a)) as [H0 | _]; [nra|].
    rewrite tan_scaled by lra.
    rewrite <- (tan_shift_plus a) by lra.
    rewrite atan_tan by lra. lra.
  - destruct (Req_dec_T a (- (PI / 2))) as [Ha2 | Ha2].
    + subst a. rewrite cos_neg, sin_neg, cos_PI2, sin_PI2.
      destruct (Rlt_dec 0 (k * 0)) as [H0 | _]; [lra|].
      destruct (Rlt_dec (k * 0) 0) as [H0 | _]; [lra|].
      destruct (Rlt_dec 0 (k * - (1))) as [H0 | _]; [lra|].
      destruct (Rlt_dec (k * - (1)) 0) as [_ | H0]; [reflexivity | lra].
    + destruct (Rlt_dec a (PI / 2)) as [Ha3 | Ha3].
      * (* right half plane *)
        assert (Hc : 0 < cos a) by (apply cos_gt_0; lra).
        destruct (Rlt_dec 0 (k * cos a)) as [_ | H0]; [|nra].
        rewrite tan_scaled by lra.
        apply atan_tan. lra.
      * destruct (Req_dec_T a (PI / 2)) as [Ha4 | Ha4].
        -- subst a. rewrite cos_PI2, sin_PI2.
           destruct (Rlt_dec 0 (k * 0)) as [H0 | _]; [lra|].
           destruct (Rlt_dec (k * 0) 0) as [H0 | _]; [lra|].
           destruct (Rlt_dec 0 (k * 1)) as [_ | H0]; [reflexivity | lra].
        -- (* second quadrant *)
           assert (Hc : cos a < 0) by (apply cos_lt_0; lra).
           assert (Hs : 0 < sin a) by (apply sin_gt_0; lra).
           destruct (Rlt_dec 0 (k * cos a)) as [H0 | _]; [nra|].
           destruct (Rlt_dec (k * cos a) 0) as [_ | H0]; [|nra].
           destruct (Rle_dec 0 (k * sin a)) as [_ | H0]; [|nra].
           rewrite tan_scaled by lra.
           replace (tan a) with (tan (a - PI)).
           ++ rewrite atan_tan by lra. lra.
           ++ rewrite <- (tan_shift_plus (a - PI)).
              ** f_equal. ring.
              ** replace (a - PI) with (- (PI - a)) by ring.
                 rewrite cos_neg.
                 replace (PI - a) with (- a + PI) by ring.
                 rewrite neg_cos, cos_neg. lra.
Qed.

End Angles.

(** ** orbit_camera and its inverse *)

Section Orbit.

Variables e a r : R.

Lemma orbit_position_sq :
  dot (orbit_position e a r) (orbit_position e a r) = r * r.
Proof.
  unfold dot, orbit_position; cbn [vx vy vz].
  pose proof (sin_cos_sq e) as He.
  pose proof (sin_cos_sq a) as Ha.
  replace ((r * cos e * sin a + 0) * (r * cos e * sin a + 0) +
           (- r * sin e + 0) * (- r * sin e + 0) +
           (r * cos e * cos a + 0) * (r * cos e * cos a + 0))
    with (r * r * (sin e * sin e +
                   cos e * cos e * (sin a * sin a + cos a * cos a)))
    by ring.
  rewrite Ha, Rmult_1_r, He. ring.
Qed.

Lemma orbit_position_norm : 0 <= r -> norm (orbit_position e a r) = r.
Proof. intros Hr. apply norm_of_sq; [exact Hr | apply orbit_position_sq]. Qed.

(** Off the poles the position is not on the world up axis. *)
Lemma orbit_position_off_axis :
  r <> 0 -> 0 < cos e ->
  0 < vx (orbit_position e a r) * vx (orbit_position e a r)
      + vz (orbit_position e a r) * vz (orbit_position e a r).
Proof.
  intros Hr Hc. unfold orbit_position; cbn [vx vz].
  pose proof (sin_cos_sq a) as Ha.
  replace ((r * cos e * sin a + 0) * (r * cos e * sin a + 0) +
           (r * cos e * cos a + 0) * (r * cos e * cos a + 0))
    with ((r * cos e) * (r * cos e) * (sin a * sin a + cos a * cos a))
    by ring.
  rewrite Ha, Rmult_1_r.
  assert (Hrc : r * cos e <> 0) by (apply Rmult_integral_contrapositive; lra).
  nra.
Qed.

End Orbit.

Lemma get_block_set (T : mat4) (M : mat3) (v : vec3) :
  get_block (set_col3 (set_block T M) v) = M.
Proof. now destruct M. Qed.

Lemma get_col3_orbit_camera (elevation azimuth radius : R) (opengl : bool) :
  get_col3 (orbit_camera elevation azimuth radius true None opengl)
  = orbit_position (deg2rad elevation) (deg2rad azimuth) radius.
Proof. reflexivity. Qed.

Lemma get_block_orbit_camera (elevation azimuth radius : R) (opengl : bool) :
  get_block (orbit_camera elevation azimuth radius true None opengl)
  = look_at (orbit_position (deg2rad elevation) (deg2rad azimuth) radius)
            zeros3 opengl.
Proof. unfold orbit_camera. now rewrite get_block_set. Qed.

(** C1: for elevation in (-90, 90), azimuth in (-180, 180) (degrees) and a
    positive radius, [undo_orbit_camera] applied to [orbit_camera] with the
    default target returns the same elevation, azimuth and radius. *)
Theorem undo_orbit_camera_orbit_camera (elevation azimuth radius : R) :
  -90 < elevation < 90 -> -180 < azimuth < 180 -> 0 < radius ->
  undo_orbit_camera (orbit_camera elevation azimuth radius true None true) true
  = (elevation, azimuth, radius).
Proof.
  intros He Ha Hr.
  pose proof (deg2rad_90 elevation He) as [He1 He2].
  pose proof (deg2rad_180 azimuth Ha) as Ha'.
  unfold undo_orbit_camera. rewrite get_col3_orbit_camera.
  rewrite orbit_position_norm by lra.
  assert (Hc : 0 < cos (deg2rad elevation)) by (apply cos_gt_0; lra).
  apply f_equal2; [apply f_equal2 | reflexivity].
  - unfold arcsin, orbit_position; cbn [vy].
    replace (- (- radius * sin (deg2rad elevation) + 0) / radius)
      with (sin (deg2rad elevation)) by (field; lra).
    rewrite asin_sin by lra. apply rad2deg_deg2rad.
  - unfold orbit_position; cbn [vx vz].
    replace (radius * cos (deg2rad elevation) * sin (deg2rad azimuth) + 0)
      with (radius * cos (deg2rad elevation) * sin (deg2rad azimuth)) by ring.
    replace (radius * cos (deg2rad elevation) * cos (deg2rad azimuth) + 0)
      with (radius * cos (deg2rad elevation) * cos (deg2rad azimuth)) by ring.
    rewrite arctan2_polar.
    + apply rad2deg_deg2rad.
    + now apply Rmult_lt_0_compat.
    + exact Ha'.
Qed.

Lemma undo_orbit_camera_orbit_camera_witness :
  undo_orbit_camera (orbit_camera 30 45 2 true None true) true = (30, 45, 2).
Proof. apply undo_orbit_camera_orbit_camera; lra. Defined.

(** C3: for elevation in (-89, 89), azimuth in (-179, 179) (degrees) and a
    positive radius, the upper-left 3x3 block of [orbit_camera] (OpenGL
    convention, default target) has unit-length, mutually orthogonal columns
    and determinant +1. *)
Theorem orbit_camera_block_proper (elevation azimuth radius : R) :
  -89 < elevation < 89 -> -179 < azimuth < 179 -> 0 < radius ->
  let M := get_block (orbit_camera elevation azimuth radius true None true) in
  (norm (col0 M) = 1 /\ norm (col1 M) = 1 /\ norm (col2 M) = 1 /\
   dot (col0 M) (col1 M) = 0 /\ dot (col0 M) (col2 M) = 0 /\
   dot (col1 M) (col2 M) = 0) /\
  det3 M = 1.
Proof.
  intros He Ha Hr M. unfold M. rewrite get_block_orbit_camera.
  apply look_at_opengl_proper.
  assert (He' : -90 < elevation < 90) by lra.
  pose proof (deg2rad_90 elevation He') as [He1 He2].
  assert (Hc : 0 < cos (deg2rad elevation)) by (apply cos_gt_0; lra).
  assert (Hr0 : radius <> 0) by lra.
  pose proof (orbit_position_off_axis (deg2rad elevation) (deg2rad azimuth)
                radius Hr0 Hc) as Hoff.
  unfold vsub, zeros3; cbn [vx vz] in *. 
  replace (vx (orbit_position (deg2rad elevation) (deg2rad azimuth) radius) - 0)
    with (vx (orbit_position (deg2rad elevation) (deg2rad azimuth) radius))
    by ring.
  replace (vz (orbit_position (deg2rad elevation) (deg2rad azimuth) radius) - 0)
    with (vz (orbit_position (deg2rad elevation) (deg2rad azimuth) radius))
    by ring.
  exact Hoff.
Qed.

Lemma orbit_camera_block_proper_witness :
  det3 (get_block (orbit_camera 10 20 3 true None true)) = 1.
Proof. apply (orbit_camera_block_proper 10 20 3); lra. Defined.


(** ** Matrices *)

Section Matrices.

Lemma M4_ext (a0 a1 a2 a3 a4 a5 a6 a7 a8 a9 a10 a11 a12 a13 a14 a15
              b0 b1 b2 b3 b4 b5 b6 b7 b8 b9 b10 b11 b12 b13 b14 b15 : R) :
  a0 = b0 -> a1 = b1 -> a2 = b2 -> a3 = b3 ->
  a4 = b4 -> a5 = b5 -> a6 = b6 -> a7 = b7 ->
  a8 = b8 -> a9 = b9 -> a10 = b10 -> a11 = b11 ->
  a12 = b12 -> a13 = b13 -> a14 = b14 -> a15 = b15 ->
  M4 a0 a1 a2 a3 a4 a5 a6 a7 a8 a9 a10 a11 a12 a13 a14 a15
  = M4 b0 b1 b2 b3 b4 b5 b6 b7 b8 b9 b10 b11 b12 b13 b14 b15.
Proof. intros; subst; reflexivity. Qed.

Lemma M3_ext (a0 a1 a2 a3 a4 a5 a6 a7 a8 b0 b1 b2 b3 b4 b5 b6 b7 b8 : R) :
  a0 = b0 -> a1 = b1 -> a2 = b2 -> a3 = b3 -> a4 = b4 ->
  a5 = b5 -> a6 = b6 -> a7 = b7 -> a8 = b8 ->
  M3 a0 a1 a2 a3 a4 a5 a6 a7 a8 = M3 b0 b1 b2 b3 b4 b5 b6 b7 b8.
Proof. intros; subst; reflexivity. Qed.

Lemma V3_ext (a0 a1 a2 b0 b1 b2 : R) :
  a0 = b0 -> a1 = b1 -> a2 = b2 -> V3 a0 a1 a2 = V3 b0 b1 b2.
Proof. intros; subst; reflexivity. Qed.

Lemma matmul3_assoc (A B C : mat3) :
  matmul3 (matmul3 A B) C = matmul3 A (matmul3 B C).
Proof. destruct A, B, C. mat_unfold. apply M3_ext; ring. Qed.

Lemma matmul3_eye_l (A : mat3) : matmul3 eye3 A = A.
Proof. destruct A. mat_unfold. apply M3_ext; ring. Qed.

Lemma matmul3_eye_r (A : mat3) : matmul3 A eye3 = A.
Proof. destruct A. mat_unfold. apply M3_ext; ring. Qed.

Lemma det3_matmul3 (A B : mat3) : det3 (matmul3 A B) = det3 A * det3 B.
Proof. destruct A, B. mat_unfold. ring. Qed.

Lemma matmul4_adjugate_r (A : mat4) :
  matmul4 A (adjugate A) = mscale4 (det4 A) eye4.
Proof. destruct A. mat_unfold. apply M4_ext; ring. Qed.

Lemma matmul4_adjugate_l (A : mat4) :
  matmul4 (adjugate A) A = mscale4 (det4 A) eye4.
Proof. destruct A. mat_unfold. apply M4_ext; ring. Qed.

Lemma matmul4_mscale4_r (k : R) (A B : mat4) :
  matmul4 A (mscale4 k B) = mscale4 k (matmul4 A B).
Proof. destruct A, B. mat_unfold. apply M4_ext; ring. Qed.

Lemma matmul4_mscale4_l (k : R) (A B : mat4) :
  matmul4 (mscale4 k A) B = mscale4 k (matmul4 A B).
Proof. destruct A, B. mat_unfold. apply M4_ext; ring. Qed.

Lemma mscale4_mscale4_eye (k l : R) :
  k * l = 1 -> mscale4 k (mscale4 l eye4) = eye4.
Proof.
  intros Hkl. mat_unfold.
  apply M4_ext; rewrite <- ?Rmult_assoc, ?Hkl; ring.
Qed.

(** [np.linalg.inv] returns a two-sided inverse when the determinant is
    not zero. *)
Lemma inv_spec (A : mat4) :
  det4 A <> 0 ->
  exists B, inv A = Py.Ok B /\ matmul4 A B = eye4 /\ matmul4 B A = eye4.
Proof.
  intros Hd. exists (mscale4 (/ det4 A) (adjugate A)).
  unfold inv. destruct (Req_dec_T (det4 A) 0) as [H0 | _]; [contradiction|].
  split; [reflexivity|]. split.
  - rewrite matmul4_mscale4_r, matmul4_adjugate_r.
    apply mscale4_mscale4_eye. now field.
  - rewrite matmul4_mscale4_l, matmul4_adjugate_l.
    apply mscale4_mscale4_eye. now field.
Qed.

Lemma inv_singular (A : mat4) :
  det4 A = 0 -> inv A = Py.Raise Py.LinAlgError.
Proof.
  intros Hd. unfold inv.
  destruct (Req_dec_T (det4 A) 0) as [_ | H0]; [reflexivity | contradiction].
Qed.

End Matrices.

(** ** OrbitCamera: pose and view *)


Section Pose.

Variable self : OrbitCamera.t.

(** The rotation block of the pose is the camera's rotation. *)
Lemma pose_block : get_block (pose self) = Rotation.as_matrix (rot self).
Proof.
  unfold pose. destruct (Rotation.as_matrix (rot self)).
  mat_unfold. apply M3_ext; ring.
Qed.

(** The translation column of the pose: the third column of the rotation
    scaled by the radius, minus the centre. *)
Lemma pose_position :
  get_col3 (pose self)
  = vsub (vscale (radius self) (col2 (Rotation.as_matrix (rot self))))
         (center self).
Proof.
  unfold pose. destruct (Rotation.as_matrix (rot self)).
  destruct (center self). mat_unfold. apply V3_ext; ring.
Qed.

Lemma pose_det : det4 (pose self) = det3 (Rotation.as_matrix (rot self)).
Proof.
  unfold pose. destruct (Rotation.as_matrix (rot self)).
  destruct (center self). mat_unfold. ring.
Qed.

(** The camera is at distance [radius] from the point opposite to
    [center] (and so from [center] itself while that is the origin). *)
Lemma campos_dist_neg_center :
  norm (col2 (Rotation.as_matrix (rot self))) = 1 -> 0 <= radius self ->
  dist (campos self) (vsub zeros3 (center self)) = radius self.
Proof.
  intros Hn Hr. unfold dist, campos. rewrite pose_position.
  apply unit_dot in Hn. revert Hn.
  generalize (col2 (Rotation.as_matrix (rot self))) as c.
  intros c Hn.
  apply norm_of_sq; [exact Hr|].
  replace (dot _ _) with (radius self * radius self * dot c c).
  - rewrite Hn. ring.
  - destruct c, (center self). mat_unfold. ring.
Qed.

End Pose.

(** ** Rotations *)

Section Rotations.

Lemma orthonormal_dots (M : mat3) :
  orthonormal M <->
  dot (col0 M) (col0 M) = 1 /\ dot (col1 M) (col1 M) = 1 /\
  dot (col2 M) (col2 M) = 1 /\ dot (col0 M) (col1 M) = 0 /\
  dot (col0 M) (col2 M) = 0 /\ dot (col1 M) (col2 M) = 0.
Proof.
  unfold orthonormal. split.
  - intros (H0 & H1 & H2 & H). repeat split; try apply unit_dot; tauto.
  - intros (H0 & H1 & H2 & H). repeat split; try apply norm_unit; tauto.
Qed.

(** Orthonormal columns, said with the Gram matrix. *)
Lemma orthonormal_gram (M : mat3) :
  orthonormal M <-> matmul3 (transpose3 M) M = eye3.
Proof.
  rewrite orthonormal_dots. destruct M. mat_unfold. split.
  - intros (H0 & H1 & H2 & H01 & H02 & H12).
    apply M3_ext; try assumption.
    + rewrite <- H01. ring.
    + rewrite <- H02. ring.
    + rewrite <- H12. ring.
  - intros E. injection E as E0 E1 E2 E3 E4 E5 E6 E7 E8. tauto.
Qed.

Lemma transpose3_matmul3 (A B : mat3) :
  transpose3 (matmul3 A B) = matmul3 (transpose3 B) (transpose3 A).
Proof. destruct A, B. mat_unfold. apply M3_ext; ring. Qed.

Lemma eye3_proper : proper_rotation eye3.
Proof.
  split.
  - apply orthonormal_gram. mat_unfold. apply M3_ext; ring.
  - mat_unfold. ring.
Qed.

(** Proper rotations are closed under composition. *)
Lemma matmul3_proper (A B : mat3) :
  proper_rotation A -> proper_rotation B -> proper_rotation (matmul3 A B).
Proof.
  intros [HA dA] [HB dB]. split.
  - apply orthonormal_gram. apply orthonormal_gram in HA, HB.
    rewrite transpose3_matmul3, matmul3_assoc.
    rewrite <- (matmul3_assoc (transpose3 A)), HA, matmul3_eye_l.
    exact HB.
  - rewrite det3_matmul3, dA, dB. ring.
Qed.

(** Rodrigues' formula about a unit axis gives a proper rotation. *)
Lemma axis_angle_proper (k : vec3) (theta : R) :
  dot k k = 1 -> proper_rotation (Rotation.axis_angle k theta).
Proof.
  intros Hk. pose proof (sin_cos_sq theta) as Hsc.
  destruct k as [x y z]. unfold dot in Hk; simpl in Hk.
  unfold Rotation.axis_angle, Rotation.skew.
  generalize dependent (sin theta). generalize dependent (cos theta).
  intros c s Hsc.
  split.
  - apply orthonormal_dots. mat_unfold. repeat split; nsatz.
  - mat_unfold. nsatz.
Qed.

Lemma vdiv_norm_unit (v : vec3) :
  norm v <> 0 -> dot (vdiv v (norm v)) (vdiv v (norm v)) = 1.
Proof.
  intros Hn. rewrite dot_vdiv by exact Hn. rewrite norm_mul_norm.
  rewrite <- (norm_mul_norm v). now field.
Qed.

(** Every [from_rotvec] is a proper rotation. *)
Lemma from_rotvec_proper (v : vec3) :
  proper_rotation (Rotation.as_matrix (Rotation.from_rotvec v)).
Proof.
  unfold Rotation.from_rotvec.
  destruct (Req_dec_T (norm v) 0) as [H0 | H0]; simpl.
  - apply eye3_proper.
  - apply axis_angle_proper. now apply vdiv_norm_unit.
Qed.

Lemma norm_vscale (k : R) (a : vec3) :
  norm a = 1 -> norm (vscale k a) = Rabs k.
Proof.
  intros Ha. apply unit_dot in Ha. unfold norm.
  replace (dot (vscale k a) (vscale k a)) with (k * k * dot a a)
    by (destruct a; mat_unfold; ring).
  rewrite Ha, Rmult_1_r. fold (Rsqr k). apply sqrt_Rsqr_abs.
Qed.

Lemma axis_angle_zero (a : vec3) : Rotation.axis_angle a 0 = eye3.
Proof.
  unfold Rotation.axis_angle, Rotation.skew. rewrite sin_0, cos_0.
  destruct a. mat_unfold. apply M3_ext; ring.
Qed.

Lemma axis_angle_flip (a : vec3) (theta : R) :
  Rotation.axis_angle (vscale (-1) a) (- theta) = Rotation.axis_angle a theta.
Proof.
  unfold Rotation.axis_angle, Rotation.skew. rewrite sin_neg, cos_neg.
  destruct a. mat_unfold. apply M3_ext; ring.
Qed.

(** [from_rotvec (a * theta)] is the rotation about the unit axis [a] by
    the signed angle [theta]. *)
Lemma from_rotvec_axis_angle (a : vec3) (theta : R) :
  norm a = 1 ->
  Rotation.as_matrix (Rotation.from_rotvec (vscale theta a))
  = Rotation.axis_angle a theta.
Proof.
  intros Ha. unfold Rotation.from_rotvec. rewrite (norm_vscale _ _ Ha).
  destruct (Req_dec_T (Rabs theta) 0) as [H0 | H0]; simpl.
  - assert (theta = 0) as ->.
    { destruct (Req_dec_T theta 0) as [E | E]; [exact E|].
      now apply Rabs_no_R0 in E. }
    symmetry. apply axis_angle_zero.
  - destruct (Rcase_abs theta) as [Hneg | Hpos].
    + rewrite (Rabs_left _ Hneg).
      rewrite <- (axis_angle_flip a theta). f_equal.
      destruct a. mat_unfold. apply V3_ext; field; lra.
    + assert (Hne : theta <> 0) by (intros ->; apply H0, Rabs_R0).
      rewrite (Rabs_right _ Hpos). f_equal.
      destruct a. mat_unfold. apply V3_ext; field; lra.
Qed.

End Rotations.

(** ** OrbitCamera: reachable states *)

Section Reachable.

Lemma from_angle_proper (s : OrbitCamera.t) (elevation azimuth : R) :
  radius s <> 0 -> -90 < elevation < 90 ->
  proper_rotation
    (Rotation.as_matrix (rot (from_angle s elevation azimuth true))).
Proof.
  intros Hr He.
  pose proof (deg2rad_90 elevation He) as [He1 He2].
  assert (Hc : 0 < cos (deg2rad elevation)) by (apply cos_gt_0; lra).
  pose proof (orbit_position_off_axis (deg2rad elevation)
                (deg2rad azimuth) (radius s) Hr Hc) as Hoff.
  unfold from_angle; cbn [rot with_rot Rotation.from_matrix
                          Rotation.as_matrix].
  apply look_at_opengl_proper.
  unfold orbit_position in Hoff. unfold vsub, zeros3.
  cbn [vx vz] in *. nra.
Qed.

(** Every reachable camera holds a proper rotation and a non-zero
    radius. *)
Lemma reachable_invariant (s : OrbitCamera.t) :
  reachable s ->
  proper_rotation (Rotation.as_matrix (rot s)) /\ radius s <> 0.
Proof.
  induction 1 as [W H r fovy near far Hr
                 | s dx dy _ [IHp IHr]
                 | s delta _ [IHp IHr]
                 | s dx dy dz _ [IHp IHr]
                 | s e a _ [IHp IHr] He].
  - split; [apply eye3_proper | exact Hr].
  - split; [|exact IHr].
    unfold orbit; cbn [rot with_rot Rotation.mul Rotation.as_matrix].
    apply matmul3_proper; [apply matmul3_proper|]; try exact IHp;
      apply from_rotvec_proper.
  - split; [exact IHp|].
    unfold scale; cbn [radius with_radius]. unfold Py.pow, Rpower.
    apply Rmult_integral_contrapositive. split; [exact IHr|].
    apply Rgt_not_eq, exp_pos.
  - split; [exact IHp | exact IHr].
  - split; [now apply from_angle_proper | exact IHr].
Qed.

End Reachable.

(** ** C2: where the camera sits *)

Lemma panned_camera_center : center panned_camera = V3 1 0 0.
Proof.
  unfold panned_camera, pan, init; cbn [center with_center rot
    Rotation.from_matrix Rotation.as_matrix].
  mat_unfold. apply V3_ext; lra.
Qed.

Lemma panned_camera_campos : campos panned_camera = V3 (-1) 0 2.
Proof.
  unfold campos. rewrite pose_position, panned_camera_center.
  unfold panned_camera, pan, init; cbn [radius with_center rot
    Rotation.from_matrix Rotation.as_matrix].
  mat_unfold. apply V3_ext; lra.
Qed.

(** C2 (fails on the code): the claim puts the camera at distance [radius]
    from [center]; after panning by (2000, 0, 0) the default camera has
    radius 2 and center (1, 0, 0), and sits at (-1, 0, 2), whose distance
    from the center is not 2. *)
Theorem campos_not_at_radius_from_center :
  reachable panned_camera /\
  radius panned_camera = 2 /\
  center panned_camera = V3 1 0 0 /\
  campos panned_camera = V3 (-1) 0 2 /\
  dist (campos panned_camera) (center panned_camera) <> radius panned_camera.
Proof.
  split; [apply reach_pan, reach_init; lra|].
  split; [reflexivity|].
  split; [apply panned_camera_center|].
  split; [apply panned_camera_campos|].
  rewrite panned_camera_campos, panned_camera_center.
  change (radius panned_camera) with 2.
  unfold dist. intros Hd.
  pose proof (norm_mul_norm (vsub (V3 (-1) 0 2) (V3 1 0 0))) as Hsq.
  rewrite Hd in Hsq. revert Hsq. mat_unfold. lra.
Qed.

(** ** C4: view is the inverse of pose *)

(** C4: for every camera whose rotation is a proper rotation (as in every
    reachable state), the pose matrix is invertible, [view] returns its
    inverse, and [pose @ view] is the 4x4 identity. *)
Theorem view_inverse_of_pose (self : OrbitCamera.t) :
  proper_rotation (Rotation.as_matrix (rot self)) ->
  det4 (pose self) <> 0 /\
  exists V : mat4,
    view self = Py.Ok V /\
    inv (pose self) = Py.Ok V /\
    matmul4 (pose self) V = eye4 /\
    matmul4 V (pose self) = eye4.
Proof.
  intros [_ Hdet].
  assert (Hd : det4 (pose self) <> 0) by (rewrite pose_det, Hdet; lra).
  split; [exact Hd|].
  destruct (inv_spec (pose self) Hd) as (V & HV & Hr & Hl).
  exists V. unfold view. auto.
Qed.

Lemma view_inverse_of_pose_witness :
  det4 (pose panned_camera) <> 0.
Proof.
  apply (view_inverse_of_pose panned_camera).
  exact eye3_proper.
Defined.

(** The same for the states the constructor and the mutators reach. *)
Corollary reachable_pose_invertible (self : OrbitCamera.t) :
  reachable self ->
  exists V : mat4,
    view self = Py.Ok V /\ matmul4 (pose self) V = eye4.
Proof.
  intros Hs. apply reachable_invariant in Hs as [Hp _].
  destruct (inv_spec (pose self)) as (V & HV & Hr & Hl).
  - rewrite pose_det. destruct Hp as [_ ->]. lra.
  - exists V. unfold view. auto.
Qed.

(** ** C5: orbit *)

(** C5: [orbit(dx, dy)] replaces the rotation by
    (rotation about [up] by -0.05 deg * dx) composed with (rotation about
    [side] by -0.05 deg * dy) composed with the old rotation, multiplied
    from the left in that order, where [side] is the first column of the
    old rotation matrix; the new rotation depends on no state field other
    than [rot] and [up].  [up] is of unit length, as the constructor sets
    it, and [rot] a proper rotation. *)
Theorem orbit_composes_rotations (self : OrbitCamera.t) (dx dy : R) :
  norm (up self) = 1 ->
  proper_rotation (Rotation.as_matrix (rot self)) ->
  let side := col0 (Rotation.as_matrix (rot self)) in
  let about_up := Rotation.axis_angle (up self) (deg2rad (-0.05 * dx)) in
  let about_side := Rotation.axis_angle side (deg2rad (-0.05 * dy)) in
  Rotation.as_matrix (rot (orbit self dx dy))
  = matmul3 about_up (matmul3 about_side (Rotation.as_matrix (rot self)))
  /\ Rotation.as_matrix (rot (orbit self dx dy))
     = matmul3 (matmul3 about_up about_side) (Rotation.as_matrix (rot self))
  /\ forall other : OrbitCamera.t,
       rot other = rot self -> up other = up self ->
       rot (orbit other dx dy) = rot (orbit self dx dy).
Proof.
  intros Hup [Hortho _] side about_up about_side.
  assert (Hside : norm side = 1) by apply Hortho.
  assert (E : Rotation.as_matrix (rot (orbit self dx dy))
              = matmul3 (matmul3 about_up about_side)
                        (Rotation.as_matrix (rot self))).
  { unfold orbit; cbn [rot with_rot Rotation.mul Rotation.as_matrix].
    fold side. unfold radians.
    rewrite (from_rotvec_axis_angle _ _ Hup).
    rewrite (from_rotvec_axis_angle _ _ Hside).
    reflexivity. }
  split; [|split].
  - rewrite E. apply matmul3_assoc.
  - exact E.
  - intros other Hrot Hupo. unfold orbit; cbn [rot with_rot].
    now rewrite Hrot, Hupo.
Qed.

Lemma orbit_composes_rotations_witness :
  Rotation.as_matrix (rot (orbit (init 640 480 2 60 0.01 100) 100 0))
  = matmul3 (Rotation.axis_angle (V3 0 1 0) (deg2rad (-0.05 * 100)))
      (matmul3 (Rotation.axis_angle (V3 1 0 0) (deg2rad (-0.05 * 0))) eye3).
Proof.
  apply (orbit_composes_rotations (init 640 480 2 60 0.01 100) 100 0).
  - apply norm_unit. unfold init; cbn [up]. unfold dot; cbn [vx vy vz]. lra.
  - apply eye3_proper.
Defined.

(** ** C6: get_perspective *)

(** C6: for fovy in (0, 180) degrees, a positive aspect and 0 < near < far,
    [get_perspective] returns the matrix with 1/(y aspect) at [0,0], -1/y
    at [1,1], -(far+near)/(far-near) at [2,2], -(2 far near)/(far-near) at
    [2,3], -1 at [3,2] and zero elsewhere, for y the tangent of half of
    fovy in radians. *)
Theorem get_perspective_matrix (fovy aspect near far : R) :
  0 < fovy < 180 -> 0 < aspect -> 0 < near < far ->
  let y := tan (fovy / 2 * (PI / 180)) in
  get_perspective fovy aspect near far
  = Py.Ok (M4 (1 / (y * aspect)) 0 0 0
              0 (- (1 / y)) 0 0
              0 0 (- ((far + near) / (far - near)))
                  (- ((2 * far * near) / (far - near)))
              0 0 (-1) 0).
Proof.
  intros Hf Ha Hnf y. unfold get_perspective, perspective_array, Py.truediv.
  destruct (Req_dec_T (far - near) 0) as [H0 | H0]; [lra|].
  cbn [Py.bind]. f_equal.
  replace (tan (deg2rad fovy / 2)) with y
    by (unfold y, deg2rad; f_equal; field).
  apply M4_ext; try reflexivity.
  - unfold Rdiv. ring.
  - unfold Rdiv. ring.
  - unfold Rdiv. ring.
Qed.

Lemma get_perspective_matrix_witness :
  exists M : mat4, get_perspective 60 1 0.01 1000 = Py.Ok M /\ m32 M = -1.
Proof.
  eexists. split.
  - apply (get_perspective_matrix 60 1 0.01 1000); lra.
  - reflexivity.
Defined.

(** ** C7: intrinsics *)

Lemma floordiv_2_bounds (n : Z) :
  (2 * Py.floordiv n 2 <= n < 2 * Py.floordiv n 2 + 2)%Z.
Proof.
  unfold Py.floordiv.
  pose proof (Z.div_mod n 2 ltac:(lia)) as Hdm.
  pose proof (Z.mod_pos_bound n 2 ltac:(lia)) as Hb.
  lia.
Qed.

(** The claim as written takes [cy = H / 2]; the code floors it: a camera
    of height 5 gets [cy = 2]. *)
Lemma intrinsics_cy_is_floored :
  let cam := init 4 5 2 60 0.01 100 in
  let f := IZR (H cam) / (2 * tan (fovy cam / 2)) in
  v3 (intrinsics cam) = 2 /\
  intrinsics cam <> V4 f f (IZR (W cam / 2)) (IZR (H cam) / 2).
Proof.
  cbv zeta. split.
  - unfold intrinsics, init; cbn [v3 H].
    change (Py.floordiv 5 2) with 2%Z. reflexivity.
  - intros E. apply (f_equal v3) in E. revert E.
    unfold intrinsics, init; cbn [v3 H].
    change (Py.floordiv 5 2) with 2%Z. lra.
Qed.

(** C7 (amended): for positive integers W, H and fovy in (0, pi), the
    intrinsics are (f, f, cx, cy) with the focal length
    f = H / (2 tan (fovy / 2)) > 0 on both axes, and cx and cy the integer
    (floor) halves of W and of H. *)
Theorem intrinsics_value (self : OrbitCamera.t) :
  (0 < W self)%Z -> (0 < H self)%Z -> 0 < fovy self < PI ->
  let f := IZR (H self) / (2 * tan (fovy self / 2)) in
  exists cx cy : Z,
    intrinsics self = V4 f f (IZR cx) (IZR cy) /\
    0 < f /\
    (2 * cx <= W self < 2 * cx + 2)%Z /\
    (2 * cy <= H self < 2 * cy + 2)%Z /\
    cx = (W self / 2)%Z /\ cy = (H self / 2)%Z.
Proof.
  intros HW HH Hf f.
  exists (Py.floordiv (W self) 2), (Py.floordiv (H self) 2).
  split; [reflexivity|]. split; [|split; [|split; [|split]]].
  - unfold f. apply Rdiv_lt_0_compat.
    + now apply IZR_lt.
    + assert (0 < tan (fovy self / 2)) by (apply tan_gt_0; lra). lra.
  - apply floordiv_2_bounds.
  - apply floordiv_2_bounds.
  - reflexivity.
  - reflexivity.
Qed.

Lemma intrinsics_value_witness :
  exists cx cy : Z,
    intrinsics (init 640 481 2 60 0.01 100)
    = V4 (481 / (2 * tan (deg2rad 60 / 2))) (481 / (2 * tan (deg2rad 60 / 2)))
         (IZR cx) (IZR cy)
    /\ cx = 320%Z /\ cy = 240%Z.
Proof.
  destruct (intrinsics_value (init 640 481 2 60 0.01 100))
    as (cx & cy & E & _ & _ & _ & Hx & Hy).
  - cbn [W init]. lia.
  - cbn [H init]. lia.
  - cbn [fovy init]. unfold deg2rad. pose proof PI_RGT_0. lra.
  - exists cx, cy. split; [exact E|]. split.
    + rewrite Hx. reflexivity.
    + rewrite Hy. reflexivity.
Defined.

(** ** C8: zoom *)

Section Zoom.

Lemma pow_opp_1 : Py.pow 1.1 (Ropp 1) = / 1.1.
Proof. unfold Py.pow. rewrite Rpower_Ropp, Rpower_1; [reflexivity | lra]. Qed.

Lemma pow_1 : Py.pow 1.1 1 = 1.1.
Proof. unfold Py.pow. rewrite Rpower_1; [reflexivity | lra]. Qed.

Lemma pow_0 : Py.pow 1.1 0 = 1.
Proof. unfold Py.pow. rewrite Rpower_O; [reflexivity | lra]. Qed.

End Zoom.

(** C8: with a positive radius, [scale(1)] strictly decreases the radius,
    [scale(-1)] strictly increases it, [scale(0)] leaves it unchanged, and
    [scale(delta)] multiplies it by 1.1 to the power -delta (for a whole
    number n of ticks: divides it by 1.1^n), keeping it positive. *)
Theorem scale_radius (self : OrbitCamera.t) :
  0 < radius self ->
  radius (scale self 1) < radius self /\
  radius self < radius (scale self (-1)) /\
  radius (scale self 0) = radius self /\
  (forall delta : R,
     radius (scale self delta) = radius self * Rpower 1.1 (- delta) /\
     0 < radius (scale self delta)) /\
  (forall n : nat, radius (scale self (INR n)) = radius self / 1.1 ^ n).
Proof.
  intros Hr. unfold scale; cbn [radius with_radius].
  split; [|split; [|split; [|split]]].
  - rewrite pow_opp_1.
    assert (H1 : / 1.1 < 1)
      by (rewrite <- Rinv_1; apply Rinv_lt_contravar; lra).
    nra.
  - replace (- (-1)) with 1 by lra. rewrite pow_1. nra.
  - rewrite Ropp_0, pow_0. ring.
  - intros delta. split; [reflexivity|].
    apply Rmult_lt_0_compat; [exact Hr|]. unfold Py.pow, Rpower. apply exp_pos.
  - intros n. unfold Py.pow.
    rewrite Rpower_Ropp, Rpower_pow by lra. reflexivity.
Qed.

Lemma scale_radius_witness :
  radius (scale (init 640 480 2 60 0.01 100) 1)
  < radius (init 640 480 2 60 0.01 100).
Proof.
  apply (scale_radius (init 640 480 2 60 0.01 100)).
  cbn [radius init]. lra.
Defined.

(** ** C9: which operations can raise *)


Section Raising.

Lemma perspective_array_ok (y aspect near far : R) :
  far <> near -> exists M, perspective_array y aspect near far = Py.Ok M.
Proof.
  intros Hne. unfold perspective_array, Py.truediv.
  destruct (Req_dec_T (far - near) 0) as [H0 | _]; [lra|].
  cbn [Py.bind]. eexists; reflexivity.
Qed.


Lemma truediv_int_ok (a b : Z) :
  b <> 0%Z -> Py.truediv (IZR a) (IZR b) = Py.Ok (IZR a / IZR b).
Proof.
  intros Hb. unfold Py.truediv.
  destruct (Req_dec_T (IZR b) 0) as [H0 | _]; [|reflexivity].
  now apply eq_IZR_R0 in H0.
Qed.

End Raising.



(** ** C10: what the mutators leave alone *)

(** C10: [orbit] and [from_angle] change only [rot], [scale] only [radius],
    [pan] only [center]; no mutator changes W, H, fovy, near, far or up. *)
Theorem mutators_frame (self : OrbitCamera.t) :
  (forall dx dy : R,
     let s := orbit self dx dy in
     W s = W self /\ H s = H self /\ radius s = radius self /\
     fovy s = fovy self /\ near s = near self /\ far s = far self /\
     center s = center self /\ up s = up self)
  /\ (forall (elevation azimuth : R) (is_degree : bool),
        let s := from_angle self elevation azimuth is_degree in
        W s = W self /\ H s = H self /\ radius s = radius self /\
        fovy s = fovy self /\ near s = near self /\ far s = far self /\
        center s = center self /\ up s = up self)
  /\ (forall delta : R,
        let s := scale self delta in
        W s = W self /\ H s = H self /\ rot s = rot self /\
        fovy s = fovy self /\ near s = near self /\ far s = far self /\
        center s = center self /\ up s = up self)
  /\ (forall dx dy dz : R,
        let s := pan self dx dy dz in
        W s = W self /\ H s = H self /\ radius s = radius self /\
        fovy s = fovy self /\ near s = near self /\ far s = far self /\
        rot s = rot self /\ up s = up self).
Proof.
  repeat split.
Qed.

(** * Further properties of the code *)

(** ** look_at in both conventions *)

Section LookAtMore.

Lemma triple_cross_rev (u v : vec3) :
  dot u (cross (cross u v) v) = dot u v * dot u v - dot u u * dot v v.
Proof. unfold dot, cross; simpl. ring. Qed.

(** The frame of the other convention is left-handed. *)
Lemma frame_improper (r f : vec3) :
  dot r r = 1 -> dot f f = 1 -> dot r f = 0 ->
  orthonormal (stack_axis1 r (cross r f) f)
  /\ det3 (stack_axis1 r (cross r f) f) = -1.
Proof.
  intros Hr Hf Hrf.
  assert (Hu : dot (cross r f) (cross r f) = 1).
  { rewrite dot_cross_cross, Hr, Hf, Hrf. ring. }
  split.
  - apply orthonormal_dots. destruct r, f.
    unfold dot, cross in *. cbn [vx vy vz] in *.
    mat_unfold. repeat split; try assumption; ring.
  - rewrite det3_stack, triple_cross_rev, Hr, Hf, Hrf. ring.
Qed.

Lemma normalized_cross_up_r (f : vec3) :
  dot f f = 1 -> 0 < vx f * vx f + vz f * vz f ->
  let r := safe_normalize (cross f (V3 0 1 0)) in
  dot r r = 1 /\ dot r f = 0.
Proof.
  intros Hf Hxz r.
  assert (Hr0 : 0 < dot (cross f (V3 0 1 0)) (cross f (V3 0 1 0))).
  { unfold dot, cross; cbn [vx vy vz]. nra. }
  split.
  - now apply safe_normalize_unit.
  - unfold r, safe_normalize. pose proof (norm_pos _ Hr0) as Hn.
    rewrite dot_vdiv_l by lra.
    replace (dot (cross f (V3 0 1 0)) f) with 0
      by (unfold dot, cross; cbn [vx vy vz]; ring).
    field. lra.
Qed.

Lemma normalized_direction (d : vec3) :
  0 < vx d * vx d + vz d * vz d ->
  let f := safe_normalize d in
  dot f f = 1 /\ 0 < vx f * vx f + vz f * vz f.
Proof.
  intros Hd f.
  assert (Hdd : 0 < dot d d) by (unfold dot; nra).
  pose proof (norm_pos d Hdd) as Hn.
  split; [now apply safe_normalize_unit|].
  unfold f, safe_normalize, vdiv; cbn [vx vz].
  replace (vx d / norm d * (vx d / norm d) + vz d / norm d * (vz d / norm d))
    with ((vx d * vx d + vz d * vz d) / (norm d * norm d)) by (field; lra).
  apply Rdiv_lt_0_compat; [exact Hd | nra].
Qed.

End LookAtMore.

(** X1: With [opengl=False], [look_at] returns a matrix with orthonormal
    columns and determinant -1 (a left-handed frame, not a proper rotation),
    whose third column is the unit vector from the camera to the target,
    whenever the viewing direction is not parallel to the world up axis. *)
Theorem look_at_not_opengl_improper (campos target : vec3) :
  let d := vsub target campos in
  0 < vx d * vx d + vz d * vz d ->
  orthonormal (look_at campos target false)
  /\ det3 (look_at campos target false) = -1
  /\ col2 (look_at campos target false) = vdiv d (norm d).
Proof.
  intros d Hd. unfold look_at; simpl negb; cbv iota.
  fold d. clearbody d.
  destruct (normalized_direction d Hd) as [Hf Hxz].
  destruct (normalized_cross_up_r _ Hf Hxz) as [Hr Hrf].
  set (f := safe_normalize d) in *.
  set (r := safe_normalize (cross f (V3 0 1 0))) in *.
  assert (Hu : dot (cross r f) (cross r f) = 1).
  { rewrite dot_cross_cross, Hr, Hf, Hrf. ring. }
  rewrite (safe_normalize_of_unit _ Hu).
  destruct (frame_improper r f Hr Hf Hrf) as [Ho Hdet].
  split; [exact Ho|]. split; [exact Hdet|].
  unfold col2, stack_axis1; cbn [a02 a12 a22]. unfold f, safe_normalize.
  reflexivity.
Qed.

Lemma look_at_not_opengl_improper_witness :
  det3 (look_at (V3 0 0 2) (V3 0 0 0) false) = -1.
Proof.
  apply (look_at_not_opengl_improper (V3 0 0 2) (V3 0 0 0)).
  cbn [vsub vx vz]. lra.
Defined.

Lemma look_at_opengl_columns (campos target : vec3) :
  let d := vsub campos target in
  0 < vx d * vx d + vz d * vz d ->
  let M := look_at campos target true in
  col2 M = vdiv d (norm d)
  /\ vy (col0 M) = 0
  /\ 0 < vy (col1 M).
Proof.
  intros d Hd M. unfold M, look_at; simpl negb; cbv iota.
  fold d. clearbody d.
  destruct (normalized_direction d Hd) as [Hf Hxz].
  set (f := safe_normalize d) in *.
  set (r0 := cross (V3 0 1 0) f).
  assert (Hr0 : 0 < dot r0 r0).
  { unfold r0, dot, cross; cbn [vx vy vz]. nra. }
  pose proof (norm_pos r0 Hr0) as Hn.
  set (r := safe_normalize r0).
  assert (Hr : dot r r = 1) by now apply safe_normalize_unit.
  assert (Hrf : dot r f = 0).
  { unfold r, safe_normalize. rewrite dot_vdiv_l by lra.
    unfold r0. rewrite dot_cross_r. field. fold r0. lra. }
  assert (Hu : dot (cross f r) (cross f r) = 1).
  { rewrite dot_cross_cross, Hr, Hf, (dot_comm f r), Hrf. ring. }
  rewrite (safe_normalize_of_unit _ Hu).
  unfold col0, col1, col2, stack_axis1;
    cbn [a00 a10 a20 a01 a11 a21 a02 a12 a22 vy].
  split; [reflexivity|]. split.
  - assert (Ey : vy r0 = 0) by (unfold r0, cross; cbn [vx vy vz]; ring).
    unfold r, safe_normalize, vdiv; cbn [vy]. rewrite Ey.
    unfold Rdiv. ring.
  - unfold cross; cbn [vx vy vz].
    unfold r, safe_normalize, vdiv; cbn [vx vy vz].
    assert (Ex : vx r0 = vz f) by (unfold r0, cross; cbn [vx vy vz]; ring).
    assert (Ez : vz r0 = - vx f) by (unfold r0, cross; cbn [vx vy vz]; ring).
    rewrite Ex, Ez.
    replace (vz f * (vz f / norm r0) - vx f * (- vx f / norm r0))
      with ((vx f * vx f + vz f * vz f) / norm r0) by (field; lra).
    now apply Rdiv_lt_0_compat.
Qed.


Lemma look_at_opengl_upright (campos target : vec3) :
  0 < vx (vsub campos target) * vx (vsub campos target)
      + vz (vsub campos target) * vz (vsub campos target) ->
  vy (col0 (look_at campos target true)) = 0
  /\ 0 < vy (col1 (look_at campos target true)).
Proof. intros Hd. now apply look_at_opengl_columns. Qed.

(** X2: With [opengl=True] the third column of [look_at] is the unit vector
    from the target to the camera, the first column (right) is horizontal, and
    the second column (up) points upward: the camera never rolls and is never
    upside down. *)
Theorem look_at_opengl_axes (campos target : vec3) :
  let d := vsub campos target in
  0 < vx d * vx d + vz d * vz d ->
  let M := look_at campos target true in
  col2 M = vdiv d (norm d)
  /\ vy (col0 M) = 0
  /\ 0 < vy (col1 M).
Proof. intros d Hd M. now apply look_at_opengl_columns. Qed.

Lemma look_at_opengl_axes_witness :
  0 < vy (col1 (look_at (V3 1 1 1) (V3 0 0 0) true)).
Proof.
  apply (look_at_opengl_axes (V3 1 1 1) (V3 0 0 0)).
  cbn [vsub vx vz]. lra.
Defined.

(** ** orbit_camera with any target, in degrees or radians *)

Section OrbitMore.

(** What [undo_orbit_camera] reads off a translation column that is an
    orbit position. *)
Lemma undo_of_orbit_position (T : mat4) (e a r : R) :
  get_col3 T = orbit_position e a r ->
  - (PI / 2) < e < PI / 2 -> - PI < a < PI -> 0 < r ->
  undo_orbit_camera T false = (e, a, r)
  /\ undo_orbit_camera T true = (rad2deg e, rad2deg a, r).
Proof.
  intros HT [He1 He2] Ha Hr.
  assert (Hc : 0 < cos e) by (apply cos_gt_0; lra).
  assert (Hel : arcsin (- vy (orbit_position e a r) / r) = e).
  { unfold arcsin, orbit_position; cbn [vy].
    replace (- (- r * sin e + 0) / r) with (sin e) by (field; lra).
    apply asin_sin. lra. }
  assert (Haz : arctan2 (vx (orbit_position e a r))
                        (vz (orbit_position e a r)) = a).
  { unfold orbit_position; cbn [vx vz].
    rewrite !Rplus_0_r. apply arctan2_polar; [|exact Ha].
    now apply Rmult_lt_0_compat. }
  unfold undo_orbit_camera. rewrite HT.
  rewrite orbit_position_norm by lra.
  rewrite Hel, Haz. split; reflexivity.
Qed.

Lemma rad2deg_bounds (x b : R) :
  - b < x < b -> - (b * (180 / PI)) < rad2deg x < b * (180 / PI).
Proof.
  intros [Hl Hu]. unfold rad2deg. pose proof PI_RGT_0 as Hpi.
  assert (Hk : 0 < 180 / PI) by (apply Rdiv_lt_0_compat; lra).
  split; nra.
Qed.

End OrbitMore.

(** X3: [orbit_camera], with or without a target and in degrees or radians,
    puts the camera at distance [radius] from the target, and the bottom row
    of the pose is (0, 0, 0, 1). *)
Theorem orbit_camera_distance_from_target
    (elevation azimuth radius : R) (is_degree : bool)
    (target : option vec3) (opengl : bool) :
  0 <= radius ->
  let T := orbit_camera elevation azimuth radius is_degree target opengl in
  let tgt := match target with None => zeros3 | Some t => t end in
  dist (get_col3 T) tgt = radius /\ get_row3 T = V4 0 0 0 1.
Proof.
  intros Hr T tgt. split; [|reflexivity].
  unfold T, orbit_camera, dist. fold tgt.
  set (e := if is_degree then deg2rad elevation else elevation).
  set (a := if is_degree then deg2rad azimuth else azimuth).
  clearbody e a tgt.
  apply norm_of_sq; [exact Hr|].
  pose proof (orbit_position_sq e a radius) as Hsq.
  rewrite <- Hsq. destruct tgt.
  unfold orbit_position. mat_unfold. ring.
Qed.

Lemma orbit_camera_distance_from_target_witness :
  dist (get_col3 (orbit_camera 30 45 2 true (Some (V3 1 2 3)) true))
       (V3 1 2 3) = 2.
Proof.
  apply (orbit_camera_distance_from_target 30 45 2 true (Some (V3 1 2 3)) true).
  lra.
Defined.

(** X4: In radians ([is_degree=False]) and in either convention,
    [undo_orbit_camera] inverts [orbit_camera] for elevation in (-pi/2, pi/2),
    azimuth in (-pi, pi) and a positive radius; read back in degrees, the same
    pose gives the converted angles, within (-90, 90) and (-180, 180). *)
Theorem undo_orbit_camera_radians (elevation azimuth radius : R)
    (opengl : bool) :
  - (PI / 2) < elevation < PI / 2 -> - PI < azimuth < PI -> 0 < radius ->
  let T := orbit_camera elevation azimuth radius false None opengl in
  undo_orbit_camera T false = (elevation, azimuth, radius)
  /\ undo_orbit_camera T true = (rad2deg elevation, rad2deg azimuth, radius)
  /\ -90 < rad2deg elevation < 90 /\ -180 < rad2deg azimuth < 180.
Proof.
  intros He Ha Hr T.
  destruct (undo_of_orbit_position T elevation azimuth radius)
    as [Hrad Hdeg]; auto.
  split; [exact Hrad|]. split; [exact Hdeg|]. split.
  - pose proof (rad2deg_bounds elevation (PI / 2) He) as Hb.
    pose proof PI_RGT_0.
    replace (PI / 2 * (180 / PI)) with 90 in Hb by (field; lra). lra.
  - pose proof (rad2deg_bounds azimuth PI Ha) as Hb.
    pose proof PI_RGT_0.
    replace (PI * (180 / PI)) with 180 in Hb by (field; lra). lra.
Qed.

Lemma undo_orbit_camera_radians_witness :
  undo_orbit_camera (orbit_camera 1 (-3) 2 false None false) false
  = (1, -3, 2).
Proof.
  apply (undo_orbit_camera_radians 1 (-3) 2 false); pose proof PI2_3_2; lra.
Defined.

(** ** OrbitCamera: pose and view in closed form *)

Section PoseMore.

Lemma matmul4_assoc (A B C : mat4) :
  matmul4 (matmul4 A B) C = matmul4 A (matmul4 B C).
Proof. destruct A, B, C. mat_unfold. apply M4_ext; ring. Qed.

Lemma matmul4_eye_l (A : mat4) : matmul4 eye4 A = A.
Proof. destruct A. mat_unfold. apply M4_ext; ring. Qed.

Lemma matmul4_eye_r (A : mat4) : matmul4 A eye4 = A.
Proof. destruct A. mat_unfold. apply M4_ext; ring. Qed.

(** A left inverse of a regular matrix is what [np.linalg.inv] returns. *)
Lemma inv_left_inverse (A C : mat4) :
  det4 A <> 0 -> matmul4 C A = eye4 -> inv A = Py.Ok C.
Proof.
  intros Hd HC.
  destruct (inv_spec A Hd) as (B & HB & Hr & Hl).
  rewrite HB. f_equal.
  rewrite <- (matmul4_eye_l B), <- HC, matmul4_assoc, Hr.
  apply matmul4_eye_r.
Qed.

(** The rigid motion with rotation block [M] and translation [t]. *)
Lemma pose_closed (self : OrbitCamera.t) :
  pose self
  = set_col3 (set_block eye4 (Rotation.as_matrix (rot self)))
      (vsub (vscale (radius self) (col2 (Rotation.as_matrix (rot self))))
            (center self)).
Proof.
  unfold pose. destruct (Rotation.as_matrix (rot self)), (center self).
  mat_unfold. apply M4_ext; ring.
Qed.

Lemma rigid_left_inverse (M : mat3) (t : vec3) :
  orthonormal M ->
  matmul4
    (set_col3 (set_block eye4 (transpose3 M))
       (vsub zeros3 (matvec3 (transpose3 M) t)))
    (set_col3 (set_block eye4 M) t)
  = eye4.
Proof.
  intros Ho. apply orthonormal_dots in Ho. revert Ho.
  destruct M, t. mat_unfold.
  intros (H0 & H1 & H2 & H01 & H02 & H12).
  apply M4_ext; nsatz.
Qed.

Lemma view_of_proper_rotation (self : OrbitCamera.t) :
  proper_rotation (Rotation.as_matrix (rot self)) ->
  view self
  = Py.Ok (set_col3
             (set_block eye4 (transpose3 (Rotation.as_matrix (rot self))))
             (vsub zeros3
                (matvec3 (transpose3 (Rotation.as_matrix (rot self)))
                   (campos self)))).
Proof.
  intros [Ho Hdet]. unfold view. apply inv_left_inverse.
  - rewrite pose_det, Hdet. lra.
  - unfold campos. rewrite pose_closed at 2.
    replace (get_col3 (pose self))
      with (vsub (vscale (radius self)
                    (col2 (Rotation.as_matrix (rot self)))) (center self))
      by (symmetry; apply pose_position).
    now apply rigid_left_inverse.
Qed.

End PoseMore.

(** X5: The pose is the rigid motion with rotation block [rot], translation
    [radius] times the third column of [rot] minus [center], and bottom row
    (0, 0, 0, 1). *)
Theorem pose_is_rigid_motion (self : OrbitCamera.t) :
  let M := Rotation.as_matrix (rot self) in
  get_block (pose self) = M
  /\ get_col3 (pose self) = vsub (vscale (radius self) (col2 M)) (center self)
  /\ get_row3 (pose self) = V4 0 0 0 1.
Proof.
  cbv zeta. rewrite pose_closed.
  destruct (Rotation.as_matrix (rot self)), (center self).
  repeat split.
Qed.

(** X6: For a camera whose rotation is proper and whose radius is not
    negative, the camera position is at distance [radius] from the point
    [-center]: the interactive camera orbits the negated [center]. *)
Theorem campos_orbits_negated_center (self : OrbitCamera.t) :
  proper_rotation (Rotation.as_matrix (rot self)) -> 0 <= radius self ->
  dist (campos self) (vsub zeros3 (center self)) = radius self.
Proof.
  intros [Ho _] Hr. apply campos_dist_neg_center; [apply Ho | exact Hr].
Qed.

Lemma campos_orbits_negated_center_witness :
  dist (campos panned_camera) (vsub zeros3 (center panned_camera)) = 2.
Proof.
  apply (campos_orbits_negated_center panned_camera).
  - exact eye3_proper.
  - cbn [radius panned_camera pan with_center init]. lra.
Defined.

(** X7: For a proper rotation, [view] is the rigid motion with the transposed
    rotation block and translation minus the transposed rotation applied to
    the camera position; it sends the camera position to the origin. *)
Theorem view_closed_form (self : OrbitCamera.t) :
  proper_rotation (Rotation.as_matrix (rot self)) ->
  let Mt := transpose3 (Rotation.as_matrix (rot self)) in
  let V := set_col3 (set_block eye4 Mt)
             (vsub zeros3 (matvec3 Mt (campos self))) in
  view self = Py.Ok V
  /\ matvec4 V (V4 (vx (campos self)) (vy (campos self)) (vz (campos self)) 1)
     = V4 0 0 0 1.
Proof.
  intros Hp Mt V. split.
  - now apply view_of_proper_rotation.
  - unfold V, Mt. destruct (campos self), (Rotation.as_matrix (rot self)).
    unfold matvec4. mat_unfold.
    cbn [m00 m01 m02 m03 m10 m11 m12 m13 m20 m21 m22 m23 m30 m31 m32 m33
         v0 v1 v2 v3].
    f_equal; ring.
Qed.

Lemma view_closed_form_witness :
  view panned_camera
  = Py.Ok (set_col3 (set_block eye4 (transpose3 eye3))
             (vsub zeros3 (matvec3 (transpose3 eye3) (campos panned_camera)))).
Proof.
  apply (view_closed_form panned_camera). exact eye3_proper.
Defined.

(** ** OrbitCamera: from_angle against orbit_camera *)

Section FromAngleMore.

Lemma vsub_zeros3 (p : vec3) : vsub p zeros3 = p.
Proof. destruct p. unfold vsub, zeros3; cbn [vx vy vz]. apply V3_ext; ring. Qed.

Lemma orbit_camera_unfold (e a r : R) (is_degree : bool) (opengl : bool) :
  let e' := if is_degree then deg2rad e else e in
  let a' := if is_degree then deg2rad a else a in
  orbit_camera e a r is_degree None opengl
  = set_col3 (set_block eye4 (look_at (orbit_position e' a' r) zeros3 opengl))
             (orbit_position e' a' r).
Proof. reflexivity. Qed.

Lemma from_angle_rot (self : OrbitCamera.t) (e a : R) (is_degree : bool) :
  let e' := if is_degree then deg2rad e else e in
  let a' := if is_degree then deg2rad a else a in
  Rotation.as_matrix (rot (from_angle self e a is_degree))
  = look_at (orbit_position e' a' (radius self)) zeros3 true.
Proof.
  cbv zeta. unfold from_angle; cbn [rot with_rot Rotation.from_matrix
                                    Rotation.as_matrix].
  unfold orbit_position. now rewrite !Rplus_0_r.
Qed.

Lemma col2_look_at_opengl (p : vec3) :
  col2 (look_at p zeros3 true) = vdiv p (norm p).
Proof.
  change (col2 (look_at p zeros3 true))
    with (vdiv (vsub p zeros3) (norm (vsub p zeros3))).
  now rewrite vsub_zeros3.
Qed.

(** Walking [r] along the direction of a point at distance [r] reaches the
    point. *)
Lemma vscale_direction (p : vec3) (r : R) :
  norm p = r -> 0 < r ->
  vsub (vscale r (vdiv p (norm p))) (V3 0 0 0) = p.
Proof.
  intros Hn Hr. rewrite Hn. destruct p.
  unfold vsub, vscale, vdiv; cbn [vx vy vz]. apply V3_ext; field; lra.
Qed.

Lemma from_angle_position (self : OrbitCamera.t) (e a : R)
    (is_degree : bool) :
  center self = V3 0 0 0 -> 0 < radius self ->
  let e' := if is_degree then deg2rad e else e in
  let a' := if is_degree then deg2rad a else a in
  get_col3 (pose (from_angle self e a is_degree))
  = orbit_position e' a' (radius self).
Proof.
  intros Hc Hr e' a'. rewrite pose_position, from_angle_rot.
  change (radius (from_angle self e a is_degree)) with (radius self).
  change (center (from_angle self e a is_degree)) with (center self).
  rewrite Hc, col2_look_at_opengl. fold e' a'.
  apply vscale_direction; [|exact Hr].
  apply orbit_position_norm. lra.
Qed.

End FromAngleMore.

(** X8: for a camera of positive radius and an elevation strictly between
    -90 and 90 degrees, [from_angle] stores the rotation block of
    [orbit_camera] for the same angles and the camera's radius, which is a
    proper rotation; while [center] is the origin, the whole pose after
    [from_angle] is the pose [orbit_camera] returns for the default
    target. *)
Theorem from_angle_pose_is_orbit_camera (self : OrbitCamera.t)
    (elevation azimuth : R) :
  0 < radius self -> -90 < elevation < 90 ->
  let T := orbit_camera elevation azimuth (radius self) true None true in
  Rotation.as_matrix (rot (from_angle self elevation azimuth true))
  = get_block T
  /\ proper_rotation (get_block T)
  /\ (center self = V3 0 0 0 ->
      pose (from_angle self elevation azimuth true) = T).
Proof.
  intros Hr He T.
  assert (Hr0 : radius self <> 0) by lra.
  assert (E : Rotation.as_matrix
                (rot (from_angle self elevation azimuth true))
              = get_block T).
  { unfold T. rewrite from_angle_rot, orbit_camera_unfold.
    now rewrite get_block_set. }
  split; [exact E|]. split.
  - rewrite <- E. now apply from_angle_proper.
  - intros Hc. rewrite pose_closed.
    rewrite <- pose_position, (from_angle_position _ _ _ _ Hc Hr).
    rewrite from_angle_rot. reflexivity.
Qed.

Lemma from_angle_pose_is_orbit_camera_witness :
  pose (from_angle (init 640 480 2 60 0.01 100) 30 45 true)
  = orbit_camera 30 45 2 true None true.
Proof.
  apply (from_angle_pose_is_orbit_camera (init 640 480 2 60 0.01 100) 30 45).
  - cbn [radius init]. lra.
  - lra.
  - reflexivity.
Defined.

(** X9: After [from_angle(elevation, azimuth)] on a camera centred at the
    origin, [undo_orbit_camera] applied to the pose gives back the elevation,
    the azimuth and the camera's radius. *)
Theorem undo_pose_from_angle (self : OrbitCamera.t)
    (elevation azimuth : R) :
  center self = V3 0 0 0 -> 0 < radius self ->
  -90 < elevation < 90 -> -180 < azimuth < 180 ->
  undo_orbit_camera (pose (from_angle self elevation azimuth true)) true
  = (elevation, azimuth, radius self).
Proof.
  intros Hc Hr He Ha.
  destruct (undo_of_orbit_position
              (pose (from_angle self elevation azimuth true))
              (deg2rad elevation) (deg2rad azimuth) (radius self))
    as [_ Hundo].
  - now apply (from_angle_position self elevation azimuth true).
  - now apply deg2rad_90.
  - now apply deg2rad_180.
  - exact Hr.
  - rewrite Hundo, !rad2deg_deg2rad. reflexivity.
Qed.

Lemma undo_pose_from_angle_witness :
  undo_orbit_camera
    (pose (from_angle (init 640 480 2 60 0.01 100) 30 45 true)) true
  = (30, 45, 2).
Proof.
  apply (undo_pose_from_angle (init 640 480 2 60 0.01 100) 30 45).
  - reflexivity.
  - cbn [radius init]. lra.
  - lra.
  - lra.
Defined.

(** ** OrbitCamera: how drags compose *)

Section OrbitDrag.

Lemma norm_zero_scale (v : vec3) : norm (vscale 0 v) = 0.
Proof.
  unfold norm.
  replace (dot (vscale 0 v) (vscale 0 v)) with 0
    by (destruct v; mat_unfold; ring).
  apply sqrt_0.
Qed.

Lemma radians_zero : radians (-0.05 * 0) = 0.
Proof. unfold radians, deg2rad. lra. Qed.

Lemma radians_plus (x y : R) :
  radians (-0.05 * (x + y)) = radians (-0.05 * x) + radians (-0.05 * y).
Proof. unfold radians, deg2rad. lra. Qed.

(** A drag of zero turns about no axis. *)
Lemma from_rotvec_zero (v : vec3) :
  Rotation.from_rotvec (vscale (radians (-0.05 * 0)) v)
  = Rotation.of_matrix eye3.
Proof.
  rewrite radians_zero. unfold Rotation.from_rotvec.
  rewrite norm_zero_scale.
  destruct (Req_dec_T 0 0) as [_ | H0]; [reflexivity | contradiction].
Qed.

(** Turns about one unit axis add their angles. *)
Lemma axis_angle_plus (k : vec3) (s t : R) :
  dot k k = 1 ->
  matmul3 (Rotation.axis_angle k s) (Rotation.axis_angle k t)
  = Rotation.axis_angle k (s + t).
Proof.
  intros Hk. unfold Rotation.axis_angle.
  rewrite sin_plus, cos_plus.
  pose proof (sin_cos_sq s) as Hs. pose proof (sin_cos_sq t) as Ht.
  destruct k as [x y z]. unfold dot in Hk; cbn [vx vy vz] in Hk.
  generalize dependent (sin s). generalize dependent (cos s).
  generalize dependent (sin t). generalize dependent (cos t).
  intros ct st Ht cs ss Hs.
  mat_unfold. apply M3_ext; nsatz.
Qed.

(** A turn about an axis leaves the axis where it is. *)
Lemma axis_angle_fixes_axis (k : vec3) (t : R) :
  matvec3 (Rotation.axis_angle k t) k = k.
Proof.
  destruct k as [x y z]. unfold Rotation.axis_angle. mat_unfold.
  apply V3_ext; ring.
Qed.

Lemma col0_matmul3 (A B : mat3) : col0 (matmul3 A B) = matvec3 A (col0 B).
Proof. destruct A, B. reflexivity. Qed.

Lemma rot_orbit (self : OrbitCamera.t) (dx dy : R) :
  Rotation.as_matrix (rot (orbit self dx dy))
  = matmul3
      (matmul3
         (Rotation.as_matrix
            (Rotation.from_rotvec (vscale (radians (-0.05 * dx)) (up self))))
         (Rotation.as_matrix
            (Rotation.from_rotvec
               (vscale (radians (-0.05 * dy))
                  (col0 (Rotation.as_matrix (rot self)))))))
      (Rotation.as_matrix (rot self)).
Proof. reflexivity. Qed.

Lemma rotation_ext (p q : Rotation.t) :
  Rotation.as_matrix p = Rotation.as_matrix q -> p = q.
Proof. destruct p, q. cbn. now intros ->. Qed.

Lemma camera_ext_rot (s1 s2 : OrbitCamera.t) :
  W s1 = W s2 -> H s1 = H s2 -> radius s1 = radius s2 ->
  fovy s1 = fovy s2 -> near s1 = near s2 -> far s1 = far s2 ->
  center s1 = center s2 -> up s1 = up s2 ->
  Rotation.as_matrix (rot s1) = Rotation.as_matrix (rot s2) ->
  s1 = s2.
Proof.
  destruct s1, s2; cbn. intros; subst.
  assert (rot0 = rot1) by now apply rotation_ext. now subst.
Qed.

End OrbitDrag.

(** X10: [orbit] keeps the rotation proper, whatever the drag and whatever the
    [up] vector. *)
Theorem orbit_keeps_rotation_proper (self : OrbitCamera.t) (dx dy : R) :
  proper_rotation (Rotation.as_matrix (rot self)) ->
  proper_rotation (Rotation.as_matrix (rot (orbit self dx dy))).
Proof.
  intros Hp. rewrite rot_orbit.
  apply matmul3_proper; [apply matmul3_proper|]; try exact Hp;
    apply from_rotvec_proper.
Qed.

Lemma orbit_keeps_rotation_proper_witness :
  proper_rotation
    (Rotation.as_matrix (rot (orbit (init 640 480 2 60 0.01 100) 100 50))).
Proof.
  apply (orbit_keeps_rotation_proper (init 640 480 2 60 0.01 100) 100 50).
  exact eye3_proper.
Defined.

(** X11: A drag of (0, 0) changes nothing: [orbit(0, 0)] returns the camera as
    it was. *)
Theorem orbit_zero_is_identity (self : OrbitCamera.t) :
  orbit self 0 0 = self.
Proof.
  apply camera_ext_rot; try reflexivity.
  rewrite rot_orbit, !from_rotvec_zero. cbn [Rotation.as_matrix].
  now rewrite !matmul3_eye_l.
Qed.

(** X12: With the world up axis (0, 1, 0), a horizontal drag [orbit(dx, 0)]
    leaves the height (y component) of each of the camera's three axes
    unchanged: it only yaws. *)
Theorem orbit_horizontal_keeps_heights (self : OrbitCamera.t) (dx : R) :
  up self = V3 0 1 0 ->
  let M := Rotation.as_matrix (rot self) in
  let M' := Rotation.as_matrix (rot (orbit self dx 0)) in
  vy (col0 M') = vy (col0 M) /\ vy (col1 M') = vy (col1 M)
  /\ vy (col2 M') = vy (col2 M).
Proof.
  intros Hup M M'. unfold M'. rewrite rot_orbit, from_rotvec_zero, Hup.
  rewrite from_rotvec_axis_angle
    by (apply norm_unit; unfold dot; cbn [vx vy vz]; lra).
  cbn [Rotation.as_matrix]. rewrite matmul3_eye_r. fold M.
  destruct M. unfold Rotation.axis_angle. mat_unfold.
  repeat split; ring.
Qed.

Lemma orbit_horizontal_keeps_heights_witness :
  vy (col2 (Rotation.as_matrix
              (rot (orbit (init 640 480 2 60 0.01 100) 100 0))))
  = vy (col2 (Rotation.as_matrix (rot (init 640 480 2 60 0.01 100)))).
Proof.
  apply (orbit_horizontal_keeps_heights (init 640 480 2 60 0.01 100) 100).
  reflexivity.
Defined.

(** X13: Drags along one screen axis add up: with [up] of unit length two
    horizontal drags are one drag by the sum, and with a proper rotation two
    vertical drags are one drag by the sum. *)
Theorem orbit_drags_add (self : OrbitCamera.t) (d1 d2 : R) :
  (norm (up self) = 1 ->
   orbit (orbit self d1 0) d2 0 = orbit self (d1 + d2) 0)
  /\ (proper_rotation (Rotation.as_matrix (rot self)) ->
      orbit (orbit self 0 d1) 0 d2 = orbit self 0 (d1 + d2)).
Proof.
  split.
  - intros Hup. apply camera_ext_rot; try reflexivity.
    rewrite !rot_orbit, !from_rotvec_zero.
    change (up (orbit self d1 0)) with (up self).
    rewrite !(from_rotvec_axis_angle _ _ Hup).
    cbn [Rotation.as_matrix]. rewrite !matmul3_eye_r.
    rewrite <- matmul3_assoc, radians_plus.
    rewrite (Rplus_comm (radians (-0.05 * d1))).
    now rewrite axis_angle_plus by now apply unit_dot.
  - intros [Ho _].
    assert (Hside : norm (col0 (Rotation.as_matrix (rot self))) = 1)
      by apply Ho.
    assert (Hside' : col0 (Rotation.as_matrix (rot (orbit self 0 d1)))
                     = col0 (Rotation.as_matrix (rot self))).
    { rewrite rot_orbit, from_rotvec_zero.
      rewrite (from_rotvec_axis_angle _ _ Hside).
      cbn [Rotation.as_matrix]. rewrite matmul3_eye_l.
      rewrite col0_matmul3. apply axis_angle_fixes_axis. }
    apply camera_ext_rot; try reflexivity.
    rewrite (rot_orbit (orbit self 0 d1)), Hside'.
    rewrite !rot_orbit, !from_rotvec_zero.
    rewrite !(from_rotvec_axis_angle _ _ Hside).
    cbn [Rotation.as_matrix]. rewrite !matmul3_eye_l.
    rewrite <- matmul3_assoc, radians_plus.
    rewrite (Rplus_comm (radians (-0.05 * d1))).
    now rewrite axis_angle_plus by now apply unit_dot.
Qed.

Lemma orbit_drags_add_witness :
  orbit (orbit (init 640 480 2 60 0.01 100) 30 0) 70 0
  = orbit (init 640 480 2 60 0.01 100) (30 + 70) 0.
Proof.
  apply (orbit_drags_add (init 640 480 2 60 0.01 100) 30 70).
  apply norm_unit. unfold dot; cbn [up init vx vy vz]. lra.
Defined.

(** ** OrbitCamera: zoom and pan compose *)

Section ZoomPan.

Lemma camera_ext (s1 s2 : OrbitCamera.t) :
  W s1 = W s2 -> H s1 = H s2 -> radius s1 = radius s2 ->
  fovy s1 = fovy s2 -> near s1 = near s2 -> far s1 = far s2 ->
  center s1 = center s2 -> rot s1 = rot s2 -> up s1 = up s2 ->
  s1 = s2.
Proof. destruct s1, s2; cbn. intros; now subst. Qed.

Lemma pow_plus (x y : R) :
  Py.pow 1.1 (- (x + y)) = Py.pow 1.1 (- x) * Py.pow 1.1 (- y).
Proof.
  unfold Py.pow. rewrite <- Rpower_plus. f_equal. ring.
Qed.

Lemma pow_cancel (x : R) : Py.pow 1.1 (- x) * Py.pow 1.1 (- - x) = 1.
Proof.
  unfold Py.pow. rewrite <- Rpower_plus.
  replace (- x + - - x) with 0 by ring.
  apply Rpower_O. lra.
Qed.

(** An orthonormal matrix keeps lengths. *)
Lemma orthonormal_isometry (M : mat3) (v : vec3) :
  orthonormal M -> dot (matvec3 M v) (matvec3 M v) = dot v v.
Proof.
  intros Ho. apply orthonormal_dots in Ho. revert Ho.
  destruct M, v. mat_unfold.
  intros (H0 & H1 & H2 & H01 & H02 & H12). nsatz.
Qed.

End ZoomPan.

(** X14: Zoom steps add up and undo each other: [scale(a)] then [scale(b)] is
    [scale(a + b)], and [scale(-delta)] after [scale(delta)] restores the
    camera. *)
Theorem scale_composes (self : OrbitCamera.t) (a b : R) :
  scale (scale self a) b = scale self (a + b)
  /\ scale (scale self a) (- a) = self.
Proof.
  split.
  - apply camera_ext; try reflexivity.
    unfold scale; cbn [radius with_radius]. rewrite pow_plus. ring.
  - apply camera_ext; try reflexivity.
    unfold scale; cbn [radius with_radius].
    rewrite Rmult_assoc, pow_cancel. ring.
Qed.

(** X15: Zooming moves the camera along the ray from the orbit point
    [-center]: the offset of the camera from [-center] is multiplied by 1.1 **
    (-delta), and the rotation block of the pose is unchanged. *)
Theorem scale_moves_along_view_ray (self : OrbitCamera.t) (delta : R) :
  vadd (campos (scale self delta)) (center self)
  = vscale (Py.pow 1.1 (- delta)) (vadd (campos self) (center self))
  /\ get_block (pose (scale self delta)) = get_block (pose self).
Proof.
  split.
  - unfold campos. rewrite !pose_position.
    change (rot (scale self delta)) with (rot self).
    change (center (scale self delta)) with (center self).
    unfold scale at 1; cbn [radius with_radius].
    destruct (col2 (Rotation.as_matrix (rot self))), (center self).
    mat_unfold. apply V3_ext; ring.
  - now rewrite !pose_block.
Qed.

(** X16: Pans add up, and a pan moves the camera rigidly against the pan:
    [pan(v)] then [pan(w)] is [pan(v + w)], and the camera position moves by
    minus the change of [center]. *)
Theorem pan_composes (self : OrbitCamera.t) (dx dy dz ex ey ez : R) :
  pan (pan self dx dy dz) ex ey ez = pan self (dx + ex) (dy + ey) (dz + ez)
  /\ vsub (campos (pan self dx dy dz)) (campos self)
     = vsub (center self) (center (pan self dx dy dz)).
Proof.
  split.
  - apply camera_ext; try reflexivity.
    unfold pan; cbn [center rot with_center].
    destruct (Rotation.as_matrix (rot self)), (center self).
    mat_unfold. apply V3_ext; ring.
  - unfold campos. rewrite !pose_position.
    change (rot (pan self dx dy dz)) with (rot self).
    change (radius (pan self dx dy dz)) with (radius self).
    unfold pan; cbn [center with_center].
    destruct (col2 (Rotation.as_matrix (rot self))), (center self),
      (Rotation.as_matrix (rot self)).
    mat_unfold. apply V3_ext; ring.
Qed.

(** X17: With a proper rotation, [pan(dx, dy, dz)] moves [center] by the
    distance 0.0005 times the length of (dx, dy, dz). *)
Theorem pan_displacement (self : OrbitCamera.t) (dx dy dz : R) :
  proper_rotation (Rotation.as_matrix (rot self)) ->
  dist (center (pan self dx dy dz)) (center self)
  = 0.0005 * norm (V3 dx dy dz).
Proof.
  intros [Ho _]. unfold dist.
  apply norm_of_sq.
  - apply Rmult_le_pos; [lra | apply norm_nonneg].
  - replace (0.0005 * norm (V3 dx dy dz) * (0.0005 * norm (V3 dx dy dz)))
      with (0.0005 * 0.0005 * (norm (V3 dx dy dz) * norm (V3 dx dy dz)))
      by ring.
    rewrite norm_mul_norm.
    replace (dot (V3 dx dy dz) (V3 dx dy dz))
      with (dot (V3 dx (- dy) dz) (V3 dx (- dy) dz))
      by (unfold dot; cbn [vx vy vz]; ring).
    rewrite <- (orthonormal_isometry _ (V3 dx (- dy) dz) Ho).
    unfold pan; cbn [center with_center].
    destruct (Rotation.as_matrix (rot self)), (center self).
    mat_unfold. ring.
Qed.

Lemma pan_displacement_witness :
  dist (center (pan (init 640 480 2 60 0.01 100) 3 4 0))
       (center (init 640 480 2 60 0.01 100))
  = 0.0005 * norm (V3 3 4 0).
Proof.
  apply (pan_displacement (init 640 480 2 60 0.01 100) 3 4 0).
  exact eye3_proper.
Defined.

(** ** Fields of view and projection *)

Section Projection.

Lemma half_fovy_atan (x : R) : 0 < x < PI -> atan (tan (x / 2)) = x / 2.
Proof. intros Hx. apply atan_tan. lra. Qed.

Lemma perspective_array_entries (y aspect near far : R) :
  far <> near ->
  perspective_array y aspect near far
  = Py.Ok (M4 (1 / (y * aspect)) 0 0 0
              0 (-1 / y) 0 0
              0 0 (- (far + near) / (far - near))
                  (- (2 * far * near) / (far - near))
              0 0 (-1) 0).
Proof.
  intros Hne. unfold perspective_array, Py.truediv.
  destruct (Req_dec_T (far - near) 0) as [H0 | _]; [lra | reflexivity].
Qed.

End Projection.

(** X18: The horizontal field of view: tan (fovx / 2) is tan (fovy / 2) times
    W / H; for a positive viewport and fovy in (0, pi) it lies in (0, pi),
    equals fovy on a square viewport, and is wider than fovy exactly on a
    landscape one. *)
Theorem fovx_against_fovy (self : OrbitCamera.t) :
  (0 < W self)%Z -> (0 < H self)%Z -> 0 < fovy self < PI ->
  tan (fovx self / 2) = tan (fovy self / 2) * IZR (W self) / IZR (H self)
  /\ 0 < fovx self < PI
  /\ (W self = H self -> fovx self = fovy self)
  /\ ((H self < W self)%Z -> fovy self < fovx self)
  /\ ((W self < H self)%Z -> fovx self < fovy self).
Proof.
  intros HW HH Hf.
  apply IZR_lt in HW, HH.
  assert (Ht : 0 < tan (fovy self / 2)) by (apply tan_gt_0; lra).
  set (t := tan (fovy self / 2)) in *.
  set (w := IZR (W self)) in *. set (h := IZR (H self)) in *.
  assert (Hq : 0 < t * w / h).
  { apply Rdiv_lt_0_compat; [|exact HH]. now apply Rmult_lt_0_compat. }
  assert (Hx : fovx self = 2 * atan (t * w / h)) by reflexivity.
  pose proof (atan_bound (t * w / h)) as [_ Hb].
  assert (Hpos : 0 < atan (t * w / h)).
  { rewrite <- atan_0. now apply atan_increasing. }
  assert (Hy : fovy self / 2 = atan t) by (symmetry; now apply half_fovy_atan).
  split; [|split; [|split; [|split]]].
  - rewrite Hx. replace (2 * atan (t * w / h) / 2) with (atan (t * w / h))
      by field. apply tan_atan.
  - rewrite Hx. lra.
  - intros E. rewrite Hx.
    assert (Ewh : w = h) by (unfold w, h; now rewrite E).
    replace (t * w / h) with t by (rewrite Ewh; field; lra). lra.
  - intros Hlt. apply IZR_lt in Hlt. fold w h in Hlt. rewrite Hx.
    assert (t < t * w / h).
    { apply Rmult_lt_reg_r with h; [exact HH|].
      replace (t * w / h * h) with (t * w) by (field; lra). nra. }
    pose proof (atan_increasing _ _ H0). lra.
  - intros Hlt. apply IZR_lt in Hlt. fold w h in Hlt. rewrite Hx.
    assert (t * w / h < t).
    { apply Rmult_lt_reg_r with h; [exact HH|].
      replace (t * w / h * h) with (t * w) by (field; lra). nra. }
    pose proof (atan_increasing _ _ H0). lra.
Qed.

Lemma fovx_against_fovy_witness :
  fovy (init 640 480 2 60 0.01 100) < fovx (init 640 480 2 60 0.01 100).
Proof.
  apply (fovx_against_fovy (init 640 480 2 60 0.01 100)).
  - cbn [W init]. lia.
  - cbn [H init]. lia.
  - cbn [fovy init]. unfold deg2rad. pose proof PI_RGT_0. lra.
  - cbn [W H init]. lia.
Defined.

(** X19: The camera's [perspective] is [get_perspective] of the constructor's
    fovy (in degrees) and the aspect W / H, error included, as long as H is
    not zero; with H = 0 the aspect itself raises ZeroDivisionError. *)
Theorem perspective_is_get_perspective (W H : Z) (r fovy near far : R) :
  (H <> 0%Z ->
   perspective (init W H r fovy near far)
   = get_perspective fovy (IZR W / IZR H) near far)
  /\ (H = 0%Z ->
      perspective (init W H r fovy near far)
      = Py.Raise Py.ZeroDivisionError).
Proof.
  split.
  - intros HH. unfold perspective, get_perspective; cbn [init OrbitCamera.W
      OrbitCamera.H OrbitCamera.fovy OrbitCamera.near OrbitCamera.far].
    now rewrite (truediv_int_ok _ _ HH).
  - intros ->. unfold perspective, Py.truediv; cbn [init OrbitCamera.H].
    destruct (Req_dec_T 0 0) as [_ | H0]; [reflexivity | contradiction].
Qed.

Lemma perspective_is_get_perspective_witness :
  perspective (init 640 480 2 60 0.01 100)
  = get_perspective 60 (640 / 480) 0.01 100.
Proof.
  apply (perspective_is_get_perspective 640 480 2 60 0.01 100). lia.
Defined.

(** X20: With 0 < near < far, the matrix of [get_perspective] sends view-space
    points at depth [near] in front of the camera (z = -near) to clip
    coordinates with w = near and z / w = -1, points at depth [far] to w = far
    and z / w = 1, and flips the sign of y. *)
Theorem get_perspective_depth_range (fovy aspect near far : R) :
  0 < fovy < 180 -> 0 < near < far ->
  exists P : mat4,
    get_perspective fovy aspect near far = Py.Ok P
    /\ (forall x y : R,
          let c := matvec4 P (V4 x y (- near) 1) in
          v3 c = near /\ v2 c / v3 c = -1)
    /\ (forall x y : R,
          let c := matvec4 P (V4 x y (- far) 1) in
          v3 c = far /\ v2 c / v3 c = 1)
    /\ (forall x y z w : R,
          0 < y -> v1 (matvec4 P (V4 x y z w)) < 0).
Proof.
  intros Hf Hnf. eexists. split; [|split; [|split]].
  - unfold get_perspective. apply perspective_array_entries. lra.
  - intros x y. unfold matvec4;
      cbn [m20 m21 m22 m23 m30 m31 m32 m33 v0 v1 v2 v3].
    split; [ring | field; lra].
  - intros x y. unfold matvec4;
      cbn [m20 m21 m22 m23 m30 m31 m32 m33 v0 v1 v2 v3].
    split; [ring | field; lra].
  - intros x y z w Hy. unfold matvec4;
      cbn [m10 m11 m12 m13 v0 v1 v2 v3].
    assert (Ht : 0 < tan (deg2rad fovy / 2)).
    { apply tan_gt_0; unfold deg2rad; pose proof PI_RGT_0; nra. }
    assert (Hq : -1 / tan (deg2rad fovy / 2) < 0).
    { unfold Rdiv. apply Rinv_0_lt_compat in Ht. nra. }
    nra.
Qed.

Lemma get_perspective_depth_range_witness :
  exists P : mat4, get_perspective 60 1 0.01 1000 = Py.Ok P.
Proof.
  destruct (get_perspective_depth_range 60 1 0.01 1000) as (P & HP & _);
    [lra | lra |].
  exists P. exact HP.
Defined.

(** X21: with a proper rotation, a positive viewport W, H, fovy in (0, pi)
    and far different from near, [mvp] returns a matrix that sends the
    orbit point [-center] to clip coordinates x = y = 0 with w = radius:
    the point the camera orbits always projects to the centre of the
    image. *)
Theorem mvp_centres_orbit_point (self : OrbitCamera.t) :
  proper_rotation (Rotation.as_matrix (rot self)) ->
  (0 < W self)%Z -> (0 < H self)%Z -> 0 < fovy self < PI ->
  far self <> near self ->
  exists M : mat4,
    mvp self = Py.Ok M
    /\ 0 < tan (fovy self / 2) * (IZR (W self) / IZR (H self))
    /\ let c := matvec4 M (V4 (- vx (center self)) (- vy (center self))
                             (- vz (center self)) 1) in
       v0 c = 0 /\ v1 c = 0 /\ v3 c = radius self.
Proof.
  intros Hp HW HH Hf Hne. pose proof Hp as [Ho _].
  apply orthonormal_dots in Ho.
  assert (HH0 : H self <> 0%Z) by lia.
  assert (Hden : 0 < tan (fovy self / 2) * (IZR (W self) / IZR (H self))).
  { apply IZR_lt in HW, HH. apply Rmult_lt_0_compat.
    - apply tan_gt_0; lra.
    - now apply Rdiv_lt_0_compat. }
  unfold mvp, perspective. rewrite (truediv_int_ok _ _ HH0). cbn [Py.bind].
  rewrite (perspective_array_entries _ _ _ _ Hne). cbn [Py.bind].
  fold (view self). rewrite (view_of_proper_rotation self Hp). cbn [Py.bind].
  eexists. split; [reflexivity|]. split; [exact Hden|].
  clear Hden.
  unfold campos. rewrite pose_position.
  revert Ho.
  destruct (Rotation.as_matrix (rot self)), (center self).
  unfold matvec4. mat_unfold.
  cbn [m00 m01 m02 m03 m10 m11 m12 m13 m20 m21 m22 m23 m30 m31 m32 m33
       v0 v1 v2 v3].
  intros (H0 & H1 & H2 & H01 & H02 & H12).
  generalize (tan (fovy self / 2)) (IZR (W self) / IZR (H self)).
  intros t q.
  generalize (1 / (t * q)) (-1 / t). intros p1 p2.
  repeat split; nsatz.
Qed.

Lemma mvp_centres_orbit_point_witness :
  exists M : mat4, mvp panned_camera = Py.Ok M.
Proof.
  destruct (mvp_centres_orbit_point panned_camera) as (M & HM & _).
  - exact eye3_proper.
  - cbn [W panned_camera pan with_center init]. lia.
  - cbn [H panned_camera pan with_center init]. lia.
  - cbn [fovy panned_camera pan with_center init]. unfold deg2rad.
    pose proof PI_RGT_0. lra.
  - cbn [far near panned_camera pan with_center init]. lra.
  - exists M. exact HM.
Defined.

(** ** undo_orbit_camera and then orbit_camera *)

Section Polar.

Lemma sq_eq_nonneg (u v : R) : 0 <= u -> 0 <= v -> u * u = v * v -> u = v.
Proof. intros Hu Hv E. nra. Qed.

(** The angle [atan (y / x)] of a point off the vertical axis. *)
Lemma polar_atan (x y h : R) :
  x <> 0 -> 0 <= h -> h * h = x * x + y * y ->
  h * cos (atan (y / x)) = Rabs x
  /\ h * sin (atan (y / x)) = Rabs x * (y / x).
Proof.
  intros Hx Hh Hsq.
  pose proof (atan_bound (y / x)) as [Hb1 Hb2].
  assert (Hc : 0 < cos (atan (y / x))) by (apply cos_gt_0; lra).
  pose proof (tan_atan (y / x)) as Ht. unfold tan in Ht.
  pose proof (sin_cos_sq (atan (y / x))) as Hsc.
  set (c := cos (atan (y / x))) in *. set (s := sin (atan (y / x))) in *.
  assert (Es : s = c * (y / x)).
  { rewrite <- Ht. field. lra. }
  assert (Ehc : h * c = Rabs x).
  { apply sq_eq_nonneg.
    - apply Rmult_le_pos; lra.
    - apply Rabs_pos.
    - replace (Rabs x * Rabs x) with (x * x)
        by (unfold Rabs; destruct (Rcase_abs x); ring).
      assert (Exs : x * s = c * y) by (rewrite Es; field; lra).
      replace (h * c * (h * c)) with ((h * h) * (c * c)) by ring.
      rewrite Hsq.
      replace ((x * x + y * y) * (c * c))
        with (x * x * (c * c) + (c * y) * (c * y)) by ring.
      rewrite <- Exs. 
      replace (x * x * (c * c) + x * s * (x * s))
        with (x * x * (s * s + c * c)) by ring.
      rewrite Hsc. ring. }
  split; [exact Ehc|].
  rewrite Es, <- Rmult_assoc, Ehc. reflexivity.
Qed.

(** [arctan2] gives the angle of the point: its sine and cosine, scaled by
    the distance from the origin, are the coordinates. *)
Lemma arctan2_polar_inv (y x h : R) :
  0 <= h -> h * h = x * x + y * y ->
  h * sin (arctan2 y x) = y /\ h * cos (arctan2 y x) = x.
Proof.
  intros Hh Hsq. unfold arctan2.
  destruct (Rlt_dec 0 x) as [Hx | Hx].
  - destruct (polar_atan x y h) as [Hc Hs]; [lra | exact Hh | exact Hsq |].
    rewrite Rabs_right in Hc, Hs by lra.
    split; [|exact Hc]. rewrite Hs. field. lra.
  - destruct (Rlt_dec x 0) as [Hx' | Hx'].
    + destruct (polar_atan x y h) as [Hc Hs]; [lra | exact Hh | exact Hsq |].
      rewrite Rabs_left in Hc, Hs by lra.
      destruct (Rle_dec 0 y) as [Hy | Hy].
      * rewrite neg_sin, neg_cos. split.
        -- rewrite <- Ropp_mult_distr_r, Hs. field. lra.
        -- rewrite <- Ropp_mult_distr_r, Hc. ring.
      * rewrite sin_minus, cos_minus, sin_PI, cos_PI. split.
        -- replace (h * (sin (atan (y / x)) * -1 - cos (atan (y / x)) * 0))
             with (- (h * sin (atan (y / x)))) by ring.
           rewrite Hs. field. lra.
        -- replace (h * (cos (atan (y / x)) * -1 + sin (atan (y / x)) * 0))
             with (- (h * cos (atan (y / x)))) by ring.
           rewrite Hc. ring.
    + assert (x = 0) as -> by lra.
      assert (Ehy : h * h = y * y) by lra.
      destruct (Rlt_dec 0 y) as [Hy | Hy].
      * rewrite sin_PI2, cos_PI2. split; [|ring].
        rewrite Rmult_1_r. apply sq_eq_nonneg; lra.
      * destruct (Rlt_dec y 0) as [Hy' | Hy'].
        -- rewrite sin_neg, cos_neg, sin_PI2, cos_PI2. split; [|ring].
           assert (h = - y) by (apply sq_eq_nonneg; lra). lra.
        -- assert (y = 0) as -> by lra.
           assert (h = 0) by (apply sq_eq_nonneg; lra).
           subst h. split; ring.
Qed.

End Polar.

Section UndoThenOrbit.

Lemma deg2rad_rad2deg (x : R) : deg2rad (rad2deg x) = x.
Proof. unfold deg2rad, rad2deg. pose proof PI_RGT_0. field. lra. Qed.

(** The orbit position at the angles read off a point is the point. *)
Lemma orbit_position_of_angles (p : vec3) :
  0 < dot p p ->
  orbit_position (arcsin (- vy p / norm p)) (arctan2 (vx p) (vz p)) (norm p)
  = p.
Proof.
  intros Hp. pose proof (norm_pos p Hp) as Hn.
  pose proof (norm_mul_norm p) as Hnn.
  set (r := norm p) in *.
  assert (Hu : -1 <= - vy p / r <= 1).
  { assert (Hy : vy p * vy p <= r * r)
      by (rewrite Hnn; unfold dot; nra).
    assert (Habs : - r <= vy p <= r) by nra.
    split.
    - apply Rmult_le_reg_r with r; [exact Hn|].
      replace (- vy p / r * r) with (- vy p) by (field; lra). lra.
    - apply Rmult_le_reg_r with r; [exact Hn|].
      replace (- vy p / r * r) with (- vy p) by (field; lra). lra. }
  unfold arcsin.
  pose proof (sin_asin _ Hu) as Hs.
  pose proof (asin_bound (- vy p / r)) as [Hb1 Hb2].
  assert (Hc : 0 <= cos (asin (- vy p / r))) by (apply cos_ge_0; lra).
  pose proof (sin_cos_sq (asin (- vy p / r))) as Hsc.
  set (e := asin (- vy p / r)) in *.
  assert (Hh : 0 <= r * cos e) by (apply Rmult_le_pos; lra).
  assert (Hhh : r * cos e * (r * cos e) = vz p * vz p + vx p * vx p).
  { replace (r * cos e * (r * cos e))
      with (r * r * (1 - sin e * sin e)) by (rewrite <- Hsc; ring).
    rewrite Hs.
    replace (r * r * (1 - - vy p / r * (- vy p / r)))
      with (r * r - vy p * vy p) by (field; lra).
    rewrite Hnn. unfold dot. ring. }
  destruct (arctan2_polar_inv (vx p) (vz p) (r * cos e) Hh Hhh) as [Hx Hz].
  unfold orbit_position. destruct p as [px py pz]; cbn [vx vy vz] in *.
  apply V3_ext.
  - rewrite Hx. ring.
  - rewrite Hs. field. lra.
  - rewrite Hz. ring.
Qed.

End UndoThenOrbit.

(** X22: [orbit_camera] applied to what [undo_orbit_camera] reads off a pose
    puts the camera back at the pose's position, in degrees as in radians, for
    every pose whose position is not the origin. *)
Theorem orbit_camera_undo_orbit_camera (T : mat4) (is_degree opengl : bool) :
  0 < dot (get_col3 T) (get_col3 T) ->
  let '(elevation, azimuth, radius) := undo_orbit_camera T is_degree in
  get_col3 (orbit_camera elevation azimuth radius is_degree None opengl)
  = get_col3 T.
Proof.
  intros Hp. unfold undo_orbit_camera.
  pose proof (orbit_position_of_angles (get_col3 T) Hp) as Hpos.
  destruct is_degree.
  - change (get_col3
              (orbit_camera
                 (rad2deg (arcsin (- vy (get_col3 T) / norm (get_col3 T))))
                 (rad2deg (arctan2 (vx (get_col3 T)) (vz (get_col3 T))))
                 (norm (get_col3 T)) true None opengl))
      with (orbit_position
              (deg2rad
                 (rad2deg (arcsin (- vy (get_col3 T) / norm (get_col3 T)))))
              (deg2rad
                 (rad2deg (arctan2 (vx (get_col3 T)) (vz (get_col3 T)))))
              (norm (get_col3 T))).
    now rewrite !deg2rad_rad2deg.
  - exact Hpos.
Qed.

Lemma orbit_camera_undo_orbit_camera_witness :
  let '(elevation, azimuth, radius) :=
    undo_orbit_camera (pose panned_camera) true in
  get_col3 (orbit_camera elevation azimuth radius true None true)
  = get_col3 (pose panned_camera).
Proof.
  apply (orbit_camera_undo_orbit_camera (pose panned_camera) true true).
  change (get_col3 (pose panned_camera)) with (campos panned_camera).
  rewrite panned_camera_campos. unfold dot; cbn [vx vy vz]. lra.
Defined.

(** ** look_at sees directions only *)

Section LookAtInvariance.

Lemma norm_vscale_pos (k : R) (d : vec3) :
  0 < k -> norm (vscale k d) = k * norm d.
Proof.
  intros Hk. apply norm_of_sq.
  - apply Rmult_le_pos; [lra | apply norm_nonneg].
  - replace (k * norm d * (k * norm d)) with (k * k * (norm d * norm d))
      by ring.
    rewrite norm_mul_norm. destruct d. mat_unfold. ring.
Qed.

Lemma norm_zero_vec (d : vec3) : norm d = 0 -> d = V3 0 0 0.
Proof.
  intros Hn. pose proof (norm_mul_norm d) as Hd. rewrite Hn in Hd.
  destruct d as [x y z]. unfold dot in Hd; cbn [vx vy vz] in Hd.
  assert (x = 0) by nra. assert (y = 0) by nra. assert (z = 0) by nra.
  now subst.
Qed.

Lemma safe_normalize_vscale (k : R) (d : vec3) :
  0 < k -> safe_normalize (vscale k d) = safe_normalize d.
Proof.
  intros Hk. unfold safe_normalize. rewrite (norm_vscale_pos _ _ Hk).
  destruct (Req_dec_T (norm d) 0) as [H0 | H0].
  - rewrite (norm_zero_vec d H0).
    unfold vscale, vdiv; cbn [vx vy vz]. unfold Rdiv. apply V3_ext; ring.
  - destruct d. unfold vscale, vdiv; cbn [vx vy vz].
    apply V3_ext; field; split; lra.
Qed.

Lemma vsub_similar (k : R) (p q t : vec3) :
  vsub (vadd (vscale k p) t) (vadd (vscale k q) t) = vscale k (vsub p q).
Proof. destruct p, q, t. mat_unfold. apply V3_ext; ring. Qed.

End LookAtInvariance.

(** X23: [look_at] depends on the direction between its two points only:
    moving both points by the same vector and scaling them by the same
    positive factor leaves the returned matrix unchanged, in both
    conventions. *)
Theorem look_at_direction_only (campos target t : vec3) (k : R)
    (opengl : bool) :
  0 < k ->
  look_at (vadd (vscale k campos) t) (vadd (vscale k target) t) opengl
  = look_at campos target opengl.
Proof.
  intros Hk. unfold look_at.
  rewrite !vsub_similar, !(safe_normalize_vscale _ _ Hk). reflexivity.
Qed.

Lemma look_at_direction_only_witness :
  look_at (vadd (vscale 3 (V3 1 2 3)) (V3 5 5 5))
          (vadd (vscale 3 (V3 0 0 1)) (V3 5 5 5)) true
  = look_at (V3 1 2 3) (V3 0 0 1) true.
Proof. apply look_at_direction_only. lra. Defined.

(** ** OrbitCamera: what every reachable camera satisfies *)

(** X24: [from_angle] on a camera of non-zero radius (negative included), for
    an elevation strictly between -90 and 90 degrees and any azimuth, stores a
    proper rotation whose right axis is horizontal and whose up axis points
    upward, whatever the rotation was before. *)
Theorem from_angle_sets_upright_rotation (self : OrbitCamera.t)
    (elevation azimuth : R) :
  radius self <> 0 -> -90 < elevation < 90 ->
  let M := Rotation.as_matrix (rot (from_angle self elevation azimuth true)) in
  proper_rotation M /\ vy (col0 M) = 0 /\ 0 < vy (col1 M).
Proof.
  intros Hr He M. split; [now apply from_angle_proper|].
  pose proof (deg2rad_90 elevation He) as [He1 He2].
  assert (Hc : 0 < cos (deg2rad elevation)) by (apply cos_gt_0; lra).
  pose proof (orbit_position_off_axis (deg2rad elevation)
                (deg2rad azimuth) (radius self) Hr Hc) as Hoff.
  unfold M, from_angle; cbn [rot with_rot Rotation.from_matrix
                             Rotation.as_matrix].
  apply look_at_opengl_upright.
  unfold orbit_position in Hoff. unfold vsub, zeros3.
  cbn [vx vz] in *. nra.
Qed.

Lemma from_angle_sets_upright_rotation_witness :
  proper_rotation
    (Rotation.as_matrix
       (rot (from_angle (init 640 480 (-2) 60 0.01 100) 30 200 true))).
Proof.
  apply (from_angle_sets_upright_rotation
           (init 640 480 (-2) 60 0.01 100) 30 200).
  - cbn [radius init]. lra.
  - lra.
Defined.

Section ReachableMore.

Lemma reachable_up (s : OrbitCamera.t) : reachable s -> up s = V3 0 1 0.
Proof. induction 1; auto. Qed.

End ReachableMore.

(** X25: Every camera reached from the constructor (with a non-zero radius) by
    [orbit], [scale], [pan] and [from_angle] (off the poles) keeps [up] at (0,
    1, 0), a proper rotation and a non-zero radius; so its pose has
    determinant 1 and [view] and, with H not zero and far different from near,
    [mvp] return matrices. *)
Theorem reachable_state_invariants (s : OrbitCamera.t) :
  reachable s ->
  up s = V3 0 1 0
  /\ proper_rotation (Rotation.as_matrix (rot s))
  /\ radius s <> 0
  /\ det4 (pose s) = 1
  /\ (exists V, view s = Py.Ok V)
  /\ (H s <> 0%Z -> far s <> near s -> exists M, mvp s = Py.Ok M).
Proof.
  intros Hs. pose proof (reachable_invariant s Hs) as [Hp Hr].
  pose proof Hp as [_ Hdet].
  assert (Hd : det4 (pose s) = 1) by now rewrite pose_det.
  destruct (inv_spec (pose s)) as (V & HV & _); [lra|].
  split; [now apply reachable_up|].
  split; [exact Hp|]. split; [exact Hr|]. split; [exact Hd|].
  split; [exists V; exact HV|].
  intros HH Hne. unfold mvp, perspective.
  rewrite (truediv_int_ok _ _ HH). cbn [Py.bind].
  destruct (perspective_array_ok (tan (fovy s / 2))
              (IZR (W s) / IZR (H s)) (near s) (far s) Hne) as (P & HP).
  rewrite HP, HV. cbn [Py.bind]. eexists; reflexivity.
Qed.

Lemma reachable_state_invariants_witness :
  det4 (pose (scale (orbit panned_camera 100 50) 3)) = 1.
Proof.
  apply (reachable_state_invariants (scale (orbit panned_camera 100 50) 3)).
  apply reach_scale, reach_orbit, reach_pan, reach_init. lra.
Defined.
